(** * The XY phase plot of nengo_gui: [Nengo.XYValue]

    A shallow embedding of [nengo_gui/static/components/xyvalue.js] and the
    properties of its redraw, reset and reconfiguration code.

    The component is stateful JavaScript: every method is embedded as a
    computation over the component record that may stop with a [TypeError]
    (the state written before the error stays written) and that emits the
    renderings and layout saves it performs. *)

From Stdlib Require Import String Ascii Bool Arith ZArith QArith Qround List.
From Stdlib Require Import Lia Lra Lqa.
Import ListNotations.

Set Implicit Arguments.
Local Open Scope Q_scope.

(** ** JavaScript values used by the component *)

Module JS.

(** A JavaScript number is an IEEE 754 double: not-a-number, an infinity
([Inf true] is minus infinity), or a finite double, held as the rational
it stands for.  Every operation below rounds its exact result to the
nearest double, ties to even, as the language does.  The sign of zero is
not kept: [-0] and [+0] are both [Fin 0]. *)
Inductive num : Type :=
| NaN : num
| Fin : Q -> num
| Inf : bool -> num.

Definition of_Z (z : Z) : num := Fin (inject_Z z).
Definition of_nat (n : nat) : num := of_Z (Z.of_nat n).

(** *** Rounding to a double *)

(** The integer part of the binary logarithm of [p / d]. *)
Definition floor_log2 (p d : positive) : Z :=
  let k := (Z.log2 (Zpos p) - Z.log2 (Zpos d))%Z in
  let below :=
    if (0 <=? k)%Z then (Zpos p <? Zpos d * 2 ^ k)%Z
    else (Zpos p * 2 ^ (- k) <? Zpos d)%Z in
  if below then (k - 1)%Z else k.

(** The integer nearest to [n / d], the even one of two equally near. *)
Definition round_half_even (n d : Z) : Z :=
  let (quot, rem) := Z.div_eucl n d in
  match (2 * rem ?= d)%Z with
  | Lt => quot
  | Gt => (quot + 1)%Z
  | Eq => if Z.even quot then quot else (quot + 1)%Z
  end.

Definition signed (neg : bool) (q : Q) : Q := if neg then Qopp q else q.

(** The double nearest to [p / d], with the sign [neg]: 53 bits of
mantissa, the exponent of the last bit not below -1074, and infinity from
2^1024 on. *)
Definition round_pos (neg : bool) (p d : positive) : num :=
  let e := floor_log2 p d in
  let u := Z.max (e - 52) (-1074) in
  if (u <? 0)%Z then
    let m := round_half_even (Zpos p * 2 ^ (- u)) (Zpos d) in
    Fin (signed neg (Qred (Qmake m (Z.to_pos (2 ^ (- u))))))
  else
    let m := round_half_even (Zpos p) (Zpos d * 2 ^ u) in
    if (2 ^ 1024 <=? m * 2 ^ u)%Z then Inf neg
    else Fin (signed neg (inject_Z (m * 2 ^ u))).

Definition round (q : Q) : num :=
  match Qnum q with
  | Z0 => Fin 0
  | Zpos p => round_pos false p (Qden q)
  | Zneg p => round_pos true p (Qden q)
  end.

(** *** Comparison and arithmetic *)

(** [q1 < q2] on rationals, as a boolean. *)
Definition Qlt_bool (a b : Q) : bool := negb (Qle_bool b a).

(** The comparison operators: any comparison with [NaN] is false. *)
Definition lt (a b : num) : bool :=
  match a, b with
  | Fin x, Fin y => Qlt_bool x y
  | Inf true, Fin _ => true
  | Fin _, Inf false => true
  | Inf true, Inf false => true
  | _, _ => false
  end.

Definition le (a b : num) : bool :=
  match a, b with
  | Fin x, Fin y => Qle_bool x y
  | Inf true, Fin _ => true
  | Fin _, Inf false => true
  | Inf true, Inf _ => true
  | Inf false, Inf false => true
  | _, _ => false
  end.

Definition ge (a b : num) : bool := le b a.

(** [a == b] on two numbers. *)
Definition eqb (a b : num) : bool :=
  match a, b with
  | Fin x, Fin y => Qeq_bool x y
  | Inf s, Inf s' => Bool.eqb s s'
  | _, _ => false
  end.

Definition negate (a : num) : num :=
  match a with
  | NaN => NaN
  | Fin x => Fin (Qopp x)
  | Inf s => Inf (negb s)
  end.

Definition add (a b : num) : num :=
  match a, b with
  | Fin x, Fin y => round (x + y)
  | Inf s, Fin _ => Inf s
  | Fin _, Inf s => Inf s
  | Inf s, Inf s' => if Bool.eqb s s' then Inf s else NaN
  | _, _ => NaN
  end.

Definition sub (a b : num) : num := add a (negate b).

Definition mul (a b : num) : num :=
  match a, b with
  | Fin x, Fin y => round (x * y)
  | Inf s, Fin y | Fin y, Inf s =>
      if Qeq_bool y 0 then NaN else Inf (xorb s (Qlt_bool y 0))
  | Inf s, Inf s' => Inf (xorb s s')
  | _, _ => NaN
  end.

(** Division; a zero divisor is taken as [+0]. *)
Definition div (a b : num) : num :=
  match a, b with
  | Fin x, Fin y =>
      if Qeq_bool y 0
      then (if Qeq_bool x 0 then NaN else Inf (Qlt_bool x 0))
      else round (x / y)
  | Fin _, Inf _ => Fin 0
  | Inf s, Fin y => Inf (xorb s (Qlt_bool y 0))
  | _, _ => NaN
  end.

(** [Math.min(a, b)]. *)
Definition min (a b : num) : num :=
  match a, b with
  | NaN, _ | _, NaN => NaN
  | _, _ => if le a b then a else b
  end.

(** Rounding towards zero. *)
Definition Qtrunc (q : Q) : Z :=
  if Qle_bool 0 q then Qfloor q else Qceiling q.

Definition is_integer (q : Q) : bool := Qeq_bool (inject_Z (Qtrunc q)) q.

(** [arr[i]] for an array [arr] and a number [i]: an element when [i] is
a non-negative integer below the length, [undefined] ([None])
otherwise.  A missing ([undefined]) index selects nothing either, so
[NaN] stands for it as well. *)
Definition get {A : Type} (arr : list A) (i : num) : option A :=
  match i with
  | Fin q =>
      if is_integer q && Qle_bool 0 q
      then nth_error arr (Z.to_nat (Qtrunc q))
      else None
  | _ => None
  end.

(** *** Text to number

The text of an input field is a [string] of bytes; a field that is
absent after [split] is [undefined], here [None].  The conversions
follow the grammar of the language for numeric strings: blanks around the
text, a sign, decimal digits with a point and an exponent, [Infinity],
and the literals with the prefixes [0x], [0o] and [0b].  Of the blanks,
those of ASCII are known (tab, line feed, vertical tab, form feed,
carriage return, space). *)

Definition is_space (c : ascii) : bool :=
  let n := nat_of_ascii c in
  ((9 <=? n)%nat && (n <=? 13)%nat) || (n =? 32)%nat.

Fixpoint trim_left (s : string) : string :=
  match s with
  | String c r => if is_space c then trim_left r else s
  | EmptyString => s
  end.

Fixpoint trim_right (s : string) : string :=
  match s with
  | EmptyString => EmptyString
  | String c r =>
      match trim_right r with
      | EmptyString => if is_space c then EmptyString else String c EmptyString
      | r' => String c r'
      end
  end.

Definition trim (s : string) : string := trim_right (trim_left s).

(** The value of a digit or letter as a digit: [0]..[9], then [a]..[z]
and [A]..[Z] for 10..35. *)
Definition digit_of (c : ascii) : option Z :=
  let n := nat_of_ascii c in
  if (48 <=? n)%nat && (n <=? 57)%nat then Some (Z.of_nat (n - 48))
  else if (97 <=? n)%nat && (n <=? 122)%nat then Some (Z.of_nat (n - 87))
  else if (65 <=? n)%nat && (n <=? 90)%nat then Some (Z.of_nat (n - 55))
  else None.

(** The longest run of digits of the radix at the head of [s]: its value
on top of [acc], the number of digits read on top of [k], and the rest. *)
Fixpoint read_digits (radix : Z) (s : string) (acc : Z) (k : nat)
    : Z * nat * string :=
  match s with
  | String c s' =>
      match digit_of c with
      | Some d =>
          if (d <? radix)%Z
          then read_digits radix s' (radix * acc + d)%Z (S k)
          else (acc, k, s)
      | None => (acc, k, s)
      end
  | EmptyString => (acc, k, s)
  end.

Definition read_sign (s : string) : bool * string :=
  match s with
  | String "-"%char r => (true, r)
  | String "+"%char r => (false, r)
  | _ => (false, s)
  end.

(** The text after the prefix [p], when [s] starts with it. *)
Fixpoint strip_prefix (p s : string) : option string :=
  match p, s with
  | EmptyString, _ => Some s
  | String a p', String b s' =>
      if Ascii.eqb a b then strip_prefix p' s' else None
  | String _ _, EmptyString => None
  end.

(** The exponent part at the head of [s], [e] or [E] with a signed run of
digits, and the rest; without one, exponent 0 and all of [s]. *)
Definition read_exponent (s : string) : Z * string :=
  match s with
  | String c r =>
      if Ascii.eqb c "e"%char || Ascii.eqb c "E"%char then
        let (neg, r1) := read_sign r in
        let '(v, n, r2) := read_digits 10 r1 0 0 in
        match n with
        | O => (0%Z, s)
        | S _ => ((if neg then - v else v)%Z, r2)
        end
      else (0%Z, s)
  | EmptyString => (0%Z, s)
  end.

(** The double of [m * 10^e] for a mantissa [m] of at most [nd] digits.
Beyond the exponents of any double the answer is known without the
power. *)
Definition decimal_value (m : Z) (nd : nat) (e : Z) : num :=
  if (m =? 0)%Z then Fin 0
  else if (400 <? e)%Z then Inf false
  else if (e + Z.of_nat nd <? - 400)%Z then Fin 0
  else if (0 <=? e)%Z then round (inject_Z (m * 10 ^ e))
  else round (Qmake m (Z.to_pos (10 ^ (- e)))).

(** The longest prefix of [s] that is an unsigned decimal literal, as a
double, with the text after it; [None] when no prefix is one. *)
Definition read_unsigned_decimal (s : string) : option (num * string) :=
  match strip_prefix "Infinity" s with
  | Some r => Some (Inf false, r)
  | None =>
      let '(ip, ni, s2) := read_digits 10 s 0 0 in
      match s2 with
      | String "."%char r =>
          let '(m, nd, s3) := read_digits 10 r ip ni in
          match nd with
          | O => None
          | S _ =>
              let (e, s4) := read_exponent s3 in
              Some (decimal_value m nd (e - Z.of_nat (nd - ni)), s4)
          end
      | _ =>
          match ni with
          | O => None
          | S _ =>
              let (e, s4) := read_exponent s2 in
              Some (decimal_value ip ni e, s4)
          end
      end
  end.

(** The same with a sign in front. *)
Definition read_decimal (s : string) : option (num * string) :=
  let (neg, s1) := read_sign s in
  match read_unsigned_decimal s1 with
  | Some (v, r) => Some (if neg then negate v else v, r)
  | None => None
  end.

(** A literal with the prefix [0x], [0o] or [0b] (either case) that takes
all of [s]; such a literal has no sign. *)
Definition read_nondecimal (s : string) : option num :=
  match s with
  | String "0"%char (String c r) =>
      let radix :=
        if Ascii.eqb c "x"%char || Ascii.eqb c "X"%char then Some 16%Z
        else if Ascii.eqb c "o"%char || Ascii.eqb c "O"%char then Some 8%Z
        else if Ascii.eqb c "b"%char || Ascii.eqb c "B"%char then Some 2%Z
        else None in
      match radix with
      | Some rx =>
          match read_digits rx r 0 0 with
          | (v, S _, EmptyString) => Some (round (inject_Z v))
          | _ => Some NaN
          end
      | None => None
      end
  | _ => None
  end.

(** [Number(x)]: the whole text, blanks left aside, must be a literal;
the empty text is 0 and [undefined] is [NaN]. *)
Definition Number (x : option string) : num :=
  match x with
  | None => NaN
  | Some s0 =>
      match trim s0 with
      | EmptyString => Fin 0
      | s =>
          match read_nondecimal s with
          | Some v => v
          | None =>
              match read_decimal s with
              | Some (v, EmptyString) => v
              | _ => NaN
              end
          end
      end
  end.

(** [parseFloat(x)]: the decimal literal at the head of the text, after
any blanks. *)
Definition parseFloat (x : option string) : num :=
  match x with
  | None => NaN
  | Some s =>
      match read_decimal (trim_left s) with
      | Some (v, _) => v
      | None => NaN
      end
  end.

(** [parseInt(x)] on text, without a radix: after any blanks and a sign,
the run of hexadecimal digits behind [0x], or else the run of decimal
digits. *)
Definition parseInt (x : option string) : num :=
  match x with
  | None => NaN
  | Some s =>
      let (neg, s1) := read_sign (trim_left s) in
      let '(v, n, _) :=
        match s1 with
        | String "0"%char (String c r) =>
            if Ascii.eqb c "x"%char || Ascii.eqb c "X"%char
            then read_digits 16 r 0 0
            else read_digits 10 s1 0 0
        | _ => read_digits 10 s1 0 0
        end in
      match n with
      | O => NaN
      | S _ => round (inject_Z (if neg then - v else v))
      end
  end.

(** [parseInt(n)] on a number: the number is printed and read back.  A
finite double below 1e21 in size prints without an exponent, and reading
it back drops the fraction; that is what is done here for every finite
number.  (A double from 1e21 on prints with an exponent and reads back as
its leading digits.  The validator of [set_indices], the one place where
this is used, asks the result to equal its argument and the argument to be
below [n_lines]: the difference shows with 1e21 dimensions or more only.) *)
Definition parseInt_num (n : num) : num :=
  match n with
  | Fin q => of_Z (Qtrunc q)
  | _ => NaN
  end.

(** [n == x] for a number [n] and a text [x]: the text is converted with
[Number]; no number equals [undefined]. *)
Definition loose_eq (n : num) (x : option string) : bool :=
  match x with
  | None => false
  | Some _ => eqb n (Number x)
  end.

(** [$.isNumeric(x)] of jQuery: [(x - parseFloat(x) + 1) >= 0]. *)
Definition isNumeric (x : option string) : bool :=
  ge (add (sub (Number x) (parseFloat x)) (Fin 1)) (Fin 0).

(** [s.split(',')]: the fields between the commas, at least one. *)
Fixpoint split_comma (s : string) : list string :=
  match s with
  | EmptyString => [EmptyString]
  | String c s' =>
      if Ascii.eqb c ","%char
      then EmptyString :: split_comma s'
      else match split_comma s' with
           | f :: fs => String c f :: fs
           | [] => [String c EmptyString]
           end
  end.

End JS.

Abbreviation num := JS.num.
Abbreviation NaN := JS.NaN.
Abbreviation Fin := JS.Fin.
Abbreviation Inf := JS.Inf.

(** ** The collaborators of the component

    [xyvalue.js] builds on objects defined elsewhere in the GUI: the
    simulation control with its time slider, the data store, the pair of
    axes, the component base class and the modal dialog.  Each is modelled
    here as far as the component reads or drives it. *)

(** Modelled from the spec: the Host Controller's display window.  The
    simulation control is not part of [xyvalue.js]; the spec says that the
    window bounds track its simulation time cursor and that samples are
    stamped with the simulation time.  [last_time - kept_time] is the oldest
    time still kept, [first_shown_time] and [shown_time] bound what is
    shown. *)
Record SimControl : Type := mkSim {
  time : num;
  last_time : num;
  kept_time : num;
  first_shown_time : num;
  shown_time : num
}.

Module DataStore.

(** Modelled from the spec: the Windowed Series Store ([Nengo.DataStore],
    not part of [xyvalue.js]).  It "accumulates incoming N-dimensional
    samples tagged by simulation time, discards samples outside the
    current display window, and returns a time-aligned snapshot of all
    dimensions for the window on demand".  [data] holds one array per
    dimension, as [xyvalue.js] reads it ([data_store.data[index][i]],
    [data_store.data.length]); [times] holds the time of each sample. *)
Record t : Type := mk {
  times : list num;
  data : list (list num)
}.

(** Modelled from the spec: [new Nengo.DataStore(dims, sim, 0)], an empty
    stream of [dims] dimensions. *)
Definition create (dims : nat) : t :=
  {| times := []; data := repeat [] dims |}.

(** The number of leading samples older than [limit]. *)
Fixpoint count_before (limit : num) (ts : list num) : nat :=
  match ts with
  | t0 :: ts' => if JS.lt t0 limit then S (count_before limit ts') else O
  | [] => O
  end.

(** Modelled from the spec: [append(sample)].  The sample is stamped with
    the simulation time; a frame whose length is not the dimension count
    is discarded. *)
Definition push (sim : SimControl) (sample : list num) (d : t) : t :=
  if (length sample =? length (data d))%nat
  then {| times := times d ++ [time sim];
          data := map (fun rv => fst rv ++ [snd rv]) (combine (data d) sample) |}
  else d.

(** Modelled from the spec: [evict_outside_window(current_time)], called
    [update()] by [xyvalue.js]: the samples older than the kept window
    are dropped from every dimension. *)
Definition update (sim : SimControl) (d : t) : t :=
  let extra := count_before (JS.sub (last_time sim) (kept_time sim)) (times d) in
  {| times := skipn extra (times d); data := map (skipn extra) (data d) |}.

(** Modelled from the spec: [snapshot()], called [get_shown_data()] by
    [xyvalue.js]: per dimension, the samples inside the shown window, in
    order and aligned by index. *)
Definition get_shown_data (sim : SimControl) (d : t) : list (list num) :=
  let t1 := first_shown_time sim in
  let t2 := JS.add t1 (shown_time sim) in
  let index := count_before t1 (times d) in
  let shown := count_before t2 (skipn index (times d)) in
  map (fun row => firstn shown (skipn index row)) (data d).

(** Modelled from the spec: [clear()], called [reset()] by [xyvalue.js]:
    the stream is emptied, the dimensions stay. *)
Definition reset (d : t) : t :=
  {| times := []; data := map (fun _ => []) (data d) |}.

(** Every dimension holds one value per sample. *)
Definition aligned (d : t) : Prop :=
  Forall (fun row => length row = length (times d)) (data d).

End DataStore.

Module XYAxes.

(** Modelled from the spec: one axis projection ("maps numeric domain
    values to pixel coordinates"), a linear scale as [d3.scale.linear]
    gives it.  The scales are not part of [xyvalue.js]. *)
Record Scale : Type := mkScale {
  domain : num * num;
  range : num * num
}.

(** Modelled from the spec: [project_x(value) -> pixel].  A value that is
    missing ([undefined]) projects to [NaN]; an empty domain projects
    everything to the start of the range. *)
Definition apply (sc : Scale) (v : option num) : num :=
  match v with
  | None => NaN
  | Some x =>
      let (d0, d1) := domain sc in
      let (r0, r1) := range sc in
      let span := JS.sub d1 d0 in
      let u := if JS.eqb span (Fin 0) then JS.mul (JS.sub x d0) (Fin 0)
               else JS.div (JS.sub x d0) span in
      JS.add r0 (JS.mul u (JS.sub r1 r0))
  end.

Definition set_domain (dom : num * num) (sc : Scale) : Scale :=
  {| domain := dom; range := range sc |}.

Definition set_range (rng : num * num) (sc : Scale) : Scale :=
  {| domain := domain sc; range := rng |}.

(** The fields of [Nengo.XYAxes] that [xyvalue.js] reads and writes. *)
Record t : Type := mk {
  min_val : num;
  max_val : num;
  scale_x : Scale;
  scale_y : Scale;
  tick_values_x : num * num;
  tick_values_y : num * num
}.

(** Modelled from the spec: [new Nengo.XYAxes(div, args)], two axes that
    share the one range [args.min_value, args.max_value]. *)
Definition create (min_value max_value : num) : t :=
  let sc := {| domain := (min_value, max_value); range := (Fin 0, Fin 1) |} in
  {| min_val := min_value; max_val := max_value;
     scale_x := sc; scale_y := sc;
     tick_values_x := (min_value, max_value);
     tick_values_y := (min_value, max_value) |}.

(** Modelled from the spec: [resize(width, height)] "updates the pixel
    mapping": x grows to the right, y grows upwards. *)
Definition on_resize (width height : num) (a : t) : t :=
  {| min_val := min_val a; max_val := max_val a;
     scale_x := set_range (Fin 0, width) (scale_x a);
     scale_y := set_range (height, Fin 0) (scale_y a);
     tick_values_x := tick_values_x a;
     tick_values_y := tick_values_y a |}.

End XYAxes.

(** ** The component *)

Module XYValue.

(** The circle that tracks the most recent sample. *)
Record Circle : Type := mkCircle {
  r : num;
  cx : num;
  cy : num
}.

(** The rectangle of the warning label; [width] and [height] are set by
    [on_resize] only. *)
Record Rect : Type := mkRect {
  rect_x : num;
  rect_y : num;
  rect_width : option num;
  rect_height : option num
}.

(** [this]: the fields of the component that its own code reads or
    writes.  [path] is the [d] attribute of the plotted line, a list of
    pixel positions, absent until the first rendering.  [pending_update],
    [screen_width] and [screen_height] are what the base class
    [Nengo.Component] keeps for [schedule_update], [get_screen_width] and
    [get_screen_height]. *)
Record t : Type := mk {
  n_lines : nat;
  sim : SimControl;
  data_store : DataStore.t;
  axes2d : XYAxes.t;
  index_x : num;
  index_y : num;
  path : option (list (num * num));
  recent_circle : Circle;
  warning_label : list Rect;
  invalid_dims : bool;
  pending_update : bool;
  width : num;
  height : num;
  screen_width : num;
  screen_height : num
}.

Definition set_sim (v : SimControl) (s : t) : t :=
  mk (n_lines s) v (data_store s) (axes2d s) (index_x s) (index_y s)
     (path s) (recent_circle s) (warning_label s) (invalid_dims s)
     (pending_update s) (width s) (height s) (screen_width s) (screen_height s).

Definition set_data_store (v : DataStore.t) (s : t) : t :=
  mk (n_lines s) (sim s) v (axes2d s) (index_x s) (index_y s)
     (path s) (recent_circle s) (warning_label s) (invalid_dims s)
     (pending_update s) (width s) (height s) (screen_width s) (screen_height s).

Definition set_axes2d (v : XYAxes.t) (s : t) : t :=
  mk (n_lines s) (sim s) (data_store s) v (index_x s) (index_y s)
     (path s) (recent_circle s) (warning_label s) (invalid_dims s)
     (pending_update s) (width s) (height s) (screen_width s) (screen_height s).

Definition set_index_x (v : num) (s : t) : t :=
  mk (n_lines s) (sim s) (data_store s) (axes2d s) v (index_y s)
     (path s) (recent_circle s) (warning_label s) (invalid_dims s)
     (pending_update s) (width s) (height s) (screen_width s) (screen_height s).

Definition set_index_y (v : num) (s : t) : t :=
  mk (n_lines s) (sim s) (data_store s) (axes2d s) (index_x s) v
     (path s) (recent_circle s) (warning_label s) (invalid_dims s)
     (pending_update s) (width s) (height s) (screen_width s) (screen_height s).

Definition set_path (v : option (list (num * num))) (s : t) : t :=
  mk (n_lines s) (sim s) (data_store s) (axes2d s) (index_x s) (index_y s)
     v (recent_circle s) (warning_label s) (invalid_dims s)
     (pending_update s) (width s) (height s) (screen_width s) (screen_height s).

Definition set_recent_circle (v : Circle) (s : t) : t :=
  mk (n_lines s) (sim s) (data_store s) (axes2d s) (index_x s) (index_y s)
     (path s) v (warning_label s) (invalid_dims s)
     (pending_update s) (width s) (height s) (screen_width s) (screen_height s).

Definition set_warning_label (v : list Rect) (s : t) : t :=
  mk (n_lines s) (sim s) (data_store s) (axes2d s) (index_x s) (index_y s)
     (path s) (recent_circle s) v (invalid_dims s)
     (pending_update s) (width s) (height s) (screen_width s) (screen_height s).

Definition set_invalid_dims (v : bool) (s : t) : t :=
  mk (n_lines s) (sim s) (data_store s) (axes2d s) (index_x s) (index_y s)
     (path s) (recent_circle s) (warning_label s) v
     (pending_update s) (width s) (height s) (screen_width s) (screen_height s).

Definition set_pending_update (v : bool) (s : t) : t :=
  mk (n_lines s) (sim s) (data_store s) (axes2d s) (index_x s) (index_y s)
     (path s) (recent_circle s) (warning_label s) (invalid_dims s)
     v (width s) (height s) (screen_width s) (screen_height s).

Definition set_width (v : num) (s : t) : t :=
  mk (n_lines s) (sim s) (data_store s) (axes2d s) (index_x s) (index_y s)
     (path s) (recent_circle s) (warning_label s) (invalid_dims s)
     (pending_update s) v (height s) (screen_width s) (screen_height s).

Definition set_height (v : num) (s : t) : t :=
  mk (n_lines s) (sim s) (data_store s) (axes2d s) (index_x s) (index_y s)
     (path s) (recent_circle s) (warning_label s) (invalid_dims s)
     (pending_update s) (width s) v (screen_width s) (screen_height s).

(** The configuration that is saved and restored: [layout_info()] and the
    argument of [update_layout]. *)
Record Layout : Type := mkLayout {
  min_value : num;
  max_value : num;
  cfg_index_x : num;
  cfg_index_y : num
}.

(** One rendering of the line: the indices and scales it was made with
    and the pixel positions written to the [d] attribute. *)
Record Drawing : Type := mkDrawing {
  drawn_index_x : num;
  drawn_index_y : num;
  drawn_scale_x : XYAxes.Scale;
  drawn_scale_y : XYAxes.Scale;
  drawn_points : list (num * num)
}.

(** What a method does that is seen outside the component. *)
Inductive Event : Type :=
| Draw : Drawing -> Event
| SaveLayout : Layout -> Event.

(** *** Methods as computations

    A method runs from a state of [this]; it ends normally with a value
    or stops with a [TypeError], in either case leaving a state and the
    events emitted so far. *)

Inductive outcome (A : Type) : Type :=
| Ok : A -> outcome A
| TypeError : outcome A.
Arguments TypeError {A}.

Record Res (A : Type) : Type := mkRes {
  out : outcome A;
  st : t;
  evs : list Event
}.

Definition M (A : Type) : Type := t -> Res A.

Definition ret {A : Type} (a : A) : M A :=
  fun s => mkRes (Ok a) s [].

Definition bind {A B : Type} (m : M A) (f : A -> M B) : M B :=
  fun s =>
    let r1 := m s in
    match out r1 with
    | Ok a =>
        let r2 := f a (st r1) in
        mkRes (out r2) (st r2) (evs r1 ++ evs r2)
    | TypeError => mkRes TypeError (st r1) (evs r1)
    end.

Definition throw {A : Type} : M A :=
  fun s => mkRes TypeError s [].

Definition this : M t :=
  fun s => mkRes (Ok s) s [].

Definition modify (f : t -> t) : M unit :=
  fun s => mkRes (Ok tt) (f s) [].

Definition emit (e : Event) : M unit :=
  fun s => mkRes (Ok tt) s [e].

Declare Scope xy_scope.
Delimit Scope xy_scope with xy.
Notation "x <- m ;; k" := (bind m (fun x => k))
  (at level 61, m at next level, right associativity) : xy_scope.
Notation "m ;; k" := (bind m (fun _ => k))
  (at level 61, right associativity) : xy_scope.
Local Open Scope xy_scope.

(** [completes r]: the run ended without an error. *)
Definition completes {A : Type} (r : Res A) : bool :=
  match out r with
  | Ok _ => true
  | TypeError => false
  end.

(** *** Rendering *)

(** The line generator of [update]:
    [d3.svg.line().x(function(d, i) {return scale_x(xs[i]);})
                  .y(function(d) {return scale_y(d);})]
    applied to the array [ys], starting at position [i]. *)
Fixpoint line_from (sx sy : XYAxes.Scale) (xs : list num) (i : nat)
    (ys : list num) : list (num * num) :=
  match ys with
  | [] => []
  | d :: ys' =>
      (XYAxes.apply sx (nth_error xs i), XYAxes.apply sy (Some d))
        :: line_from sx sy xs (S i) ys'
  end.

Definition line (sx sy : XYAxes.Scale) (xs ys : list num) : list (num * num) :=
  line_from sx sy xs 0 ys.

(** [this.warning_label.lastChild]: [warning_label] is a d3 selection,
    not a DOM node, and has no such property. *)
Definition lastChild (w : list Rect) : option Rect := None.

(** [while(this.warning_label.lastChild){ removeChild(lastChild) }]. *)
Definition remove_children (w : list Rect) : list Rect :=
  match lastChild w with
  | Some _ => []
  | None => w
  end.

(** [Nengo.XYValue.prototype.update]: redraw the line and the circle. *)
Definition update : M unit :=
  s <- this ;;
  (* let the data store clear out old values *)
  modify (set_data_store (DataStore.update (sim s) (data_store s))) ;;
  s <- this ;;
  if (1 <? length (DataStore.data (data_store s)))%nat then
    let shown_data := DataStore.get_shown_data (sim s) (data_store s) in
    match JS.get shown_data (index_x s) with
    | None => throw
    | Some xs =>
        let last_index := (Z.of_nat (length xs) - 1)%Z in
        (if (0 <=? last_index)%Z then
           match JS.get shown_data (index_y s) with
           | None => throw
           | Some ys =>
               let sx := XYAxes.scale_x (axes2d s) in
               let sy := XYAxes.scale_y (axes2d s) in
               let d := line sx sy xs ys in
               modify (set_path (Some d)) ;;
               emit (Draw (mkDrawing (index_x s) (index_y s) sx sy d)) ;;
               modify (fun s' =>
                 set_recent_circle
                   (mkCircle (r (recent_circle s'))
                      (XYAxes.apply sx (nth_error xs (Z.to_nat last_index)))
                      (XYAxes.apply sy (nth_error ys (Z.to_nat last_index))))
                   s')
           end
         else ret tt) ;;
        s <- this ;;
        if invalid_dims s then
          modify (set_warning_label (remove_children (warning_label s))) ;;
          modify (set_invalid_dims false)
        else ret tt
    end
  else
    if negb (invalid_dims s) then
      modify (set_invalid_dims true) ;;
      modify (fun s' =>
        set_warning_label
          (warning_label s' ++ [mkRect (Fin 50) (Fin 50) None None]) s')
    else ret tt.

(** Modelled from the spec: [schedule_update] of the base class
    [Nengo.Component] "marks a redraw as pending"; the redraw itself runs
    at the next frame ([frame] below). *)
Definition schedule_update : M unit :=
  modify (set_pending_update true).

(** Modelled from the spec: the frame-render opportunity of the base
    class, at most one [update] for all the requests since the last one. *)
Definition frame : M unit :=
  s <- this ;;
  if pending_update s then
    modify (set_pending_update false) ;;
    update
  else ret tt.

(** [Nengo.XYValue.prototype.on_message]: receive new line data. *)
Definition on_message (data : list num) : M unit :=
  modify (fun s => set_data_store (DataStore.push (sim s) data (data_store s)) s) ;;
  schedule_update.

(** [Nengo.XYValue.prototype.get_circle_radius]. *)
Definition get_circle_radius (s : t) : num :=
  JS.div (JS.min (width s) (height s)) (Fin 30).

(** [this.warning_label.select("rect").attr("width", w).attr("height", h)]:
    the first rectangle of the label, when there is one. *)
Definition resize_first_rect (w h : num) (label : list Rect) : list Rect :=
  match label with
  | [] => []
  | rc :: rest => mkRect (rect_x rc) (rect_y rc) (Some w) (Some h) :: rest
  end.

(** [Nengo.XYValue.prototype.on_resize]: adjust the layout to a changed
    size.  The styles of the label and of the div, and the texts of the
    warning label (none is ever added), are not part of the state. *)
Definition on_resize (w h : num) : M unit :=
  modify (fun s => set_axes2d (XYAxes.on_resize w h (axes2d s)) s) ;;
  update ;;
  modify (set_width w) ;;
  modify (set_height h) ;;
  modify (fun s =>
    set_recent_circle
      (mkCircle (get_circle_radius s) (cx (recent_circle s)) (cy (recent_circle s)))
      s) ;;
  modify (fun s =>
    set_warning_label
      (resize_first_rect (JS.sub w (Fin 100)) (JS.sub h (Fin 100)) (warning_label s))
      s).

(** [Nengo.XYValue.prototype.layout_info], without the fields of the base
    class. *)
Definition layout_info (s : t) : Layout :=
  {| min_value := fst (XYAxes.domain (XYAxes.scale_y (axes2d s)));
     max_value := snd (XYAxes.domain (XYAxes.scale_y (axes2d s)));
     cfg_index_x := index_x s;
     cfg_index_y := index_y s |}.

(** Modelled from the spec: [save_layout] of the base class "persists the
    new configuration", the one [layout_info] reports. *)
Definition save_layout : M unit :=
  s <- this ;;
  emit (SaveLayout (layout_info s)).

(** [Nengo.XYValue.prototype.update_indices]. *)
Definition update_indices (ix iy : num) : M unit :=
  modify (set_index_x ix) ;;
  modify (set_index_y iy) ;;
  update.

(** [Nengo.XYValue.prototype.update_range].  Rendering the two axes again
    ([axis_y_g.call(axis_y)], [axis_x_g.call(axis_x)]) leaves the state
    as it is. *)
Definition update_range (min max : num) : M unit :=
  modify (fun s =>
    let a := axes2d s in
    set_axes2d
      (XYAxes.mk min max
         (XYAxes.set_domain (min, max) (XYAxes.scale_x a))
         (XYAxes.set_domain (min, max) (XYAxes.scale_y a))
         (min, max) (min, max))
      s) ;;
  s <- this ;;
  on_resize (screen_width s) (screen_height s).

(** [Nengo.XYValue.prototype.update_layout].  The last call is to the
    method of the base class [Nengo.Component], which is not part of
    [xyvalue.js] and is taken as the parameter [Component_update_layout]. *)
Definition update_layout (Component_update_layout : Layout -> M unit)
    (config : Layout) : M unit :=
  update_indices (cfg_index_x config) (cfg_index_y config) ;;
  update_range (min_value config) (max_value config) ;;
  Component_update_layout config.

(** Modelled from the spec: the modal dialog framework rejects the text of
    the input in place when the validator of the form fails
    ([modal.hasErrors()]) or when the text is empty
    ([modal.isIncomplete()]). *)
Definition modal_rejects (my_validator : string -> bool) (val : string) : bool :=
  negb (my_validator val) || String.eqb val EmptyString.

(** [my_validator] of [Nengo.XYValue.prototype.set_range]. *)
Definition set_range_validator (val : string) : bool :=
  let nums := JS.split_comma val in
  let n0 := nth_error nums 0 in
  let n1 := nth_error nums 1 in
  let valid :=
    if JS.isNumeric n0 && JS.isNumeric n1 then
      (* two numbers, 1st less than 2nd; the axes must intersect at 0 *)
      let ordered := JS.lt (JS.Number n0) (JS.Number n1) in
      let zeroed := JS.le (JS.mul (JS.Number n0) (JS.Number n1)) (Fin 0) in
      if ordered && zeroed then true else false
    else false in
  (length nums =? 2)%nat && valid.

(** [Nengo.XYValue.prototype.set_range], from the click on OK with the
    text [val] in the input: the result tells whether the dialog took
    the text (and closes) or rejected it.  The text of an input is never
    [null]. *)
Definition set_range (val : string) : M bool :=
  if modal_rejects set_range_validator val then ret false
  else
    let new_range := JS.split_comma val in
    let min := JS.parseFloat (nth_error new_range 0) in
    let max := JS.parseFloat (nth_error new_range 1) in
    update_range min max ;;
    update ;;
    save_layout ;;
    ret true.

(** [my_validator] of [Nengo.XYValue.prototype.set_indices]. *)
Definition set_indices_validator (n_lines : nat) (val : string) : bool :=
  let nums := JS.split_comma val in
  let n0 := nth_error nums 0 in
  let n1 := nth_error nums 1 in
  JS.loose_eq (JS.parseInt_num (JS.Number n0)) n0 &&
  JS.loose_eq (JS.parseInt_num (JS.Number n1)) n1 &&
  (length nums =? 2)%nat &&
  (JS.lt (JS.Number n1) (JS.of_nat n_lines) && JS.ge (JS.Number n1) (Fin 0)) &&
  (JS.lt (JS.Number n0) (JS.of_nat n_lines) && JS.ge (JS.Number n0) (Fin 0)).

(** [Nengo.XYValue.prototype.set_indices], from the click on OK with the
    text [val] in the input. *)
Definition set_indices (val : string) : M bool :=
  s <- this ;;
  if modal_rejects (set_indices_validator (n_lines s)) val then ret false
  else
    let new_indices := JS.split_comma val in
    update_indices (JS.parseInt (nth_error new_indices 0))
                   (JS.parseInt (nth_error new_indices 1)) ;;
    save_layout ;;
    ret true.

(** [Nengo.XYValue.prototype.reset]. *)
Definition reset : M unit :=
  modify (fun s => set_data_store (DataStore.reset (data_store s)) s) ;;
  schedule_update.

(** The listener of [adjust_time]: the simulation control has moved its
    window to [sim']. *)
Definition adjust_time (sim' : SimControl) : M unit :=
  modify (set_sim sim') ;;
  schedule_update.

(** The arguments of the constructor; [args_width] and [args_height] are
    the screen size that the base class derives from them. *)
Record Args : Type := mkArgs {
  args_n_lines : option nat;
  args_min_value : num;
  args_max_value : num;
  args_index_x : num;
  args_index_y : num;
  args_width : num;
  args_height : num
}.

(** [args.n_lines || 1]. *)
Definition n_lines_or_1 (n : option nat) : nat :=
  match n with
  | Some (S k) => S k
  | _ => 1%nat
  end.

(** The state that the constructor [Nengo.XYValue] sets up before its
    last statement. *)
Definition init (sim0 : SimControl) (args : Args) : t :=
  let n := n_lines_or_1 (args_n_lines args) in
  let axes := XYAxes.create (args_min_value args) (args_max_value args) in
  {| n_lines := n;
     sim := sim0;
     data_store := DataStore.create n;
     axes2d := axes;
     index_x := args_index_x args;
     index_y := args_index_y args;
     path := None;
     recent_circle :=
       mkCircle (JS.div (JS.min (args_width args) (args_height args)) (Fin 30))
                (XYAxes.apply (XYAxes.scale_x axes) (Some (Fin 0)))
                (XYAxes.apply (XYAxes.scale_y axes) (Some (Fin 0)));
     warning_label := [];
     invalid_dims := false;
     pending_update := false;
     width := args_width args;
     height := args_height args;
     screen_width := args_width args;
     screen_height := args_height args |}.

(** The constructor [Nengo.XYValue]: it ends with
    [this.on_resize(this.get_screen_width(), this.get_screen_height())]. *)
Definition create (sim0 : SimControl) (args : Args) : Res unit :=
  on_resize (args_width args) (args_height args) (init sim0 args).

End XYValue.

(** ** Vocabulary of the properties *)

Import XYValue.

(** The dimension count: [this.data_store.data.length]. *)
Definition dims (s : t) : nat := length (DataStore.data (data_store s)).

(** The state once the data store has cleared out old values. *)
Definition evict (s : t) : t :=
  set_data_store (DataStore.update (sim s) (data_store s)) s.

(** The window snapshot that [update] reads: [get_shown_data()] after the
    store has cleared out old values. *)
Definition snapshot (s : t) : list (list num) :=
  DataStore.get_shown_data (sim s) (DataStore.update (sim s) (data_store s)).

(** The number of points of the snapshot: the samples inside the shown
    window. *)
Definition snapshot_points (s : t) : nat :=
  let d := DataStore.update (sim s) (data_store s) in
  let t1 := first_shown_time (sim s) in
  let t2 := JS.add t1 (shown_time (sim s)) in
  let index := DataStore.count_before t1 (DataStore.times d) in
  DataStore.count_before t2 (skipn index (DataStore.times d)).

(** The warning switched off, as [update] does for valid dimensions. *)
Definition unwarn (s : t) : t :=
  if invalid_dims s
  then set_invalid_dims false (set_warning_label (remove_children (warning_label s)) s)
  else s.

(** The warning switched on, as [update] does for invalid dimensions. *)
Definition warn (s : t) : t :=
  if invalid_dims s then s
  else set_warning_label (warning_label s ++ [mkRect (Fin 50) (Fin 50) None None])
         (set_invalid_dims true s).

(** The state with the line through [xs], [ys] rendered and the circle on
    their last point. *)
Definition drawn (s : t) (xs ys : list num) : t :=
  let sx := XYAxes.scale_x (axes2d s) in
  let sy := XYAxes.scale_y (axes2d s) in
  let last_index := Z.to_nat (Z.of_nat (length xs) - 1) in
  set_recent_circle
    (mkCircle (r (recent_circle s))
       (XYAxes.apply sx (nth_error xs last_index))
       (XYAxes.apply sy (nth_error ys last_index)))
    (set_path (Some (line sx sy xs ys)) s).

(** The rendering of the line through [xs], [ys] in state [s]. *)
Definition drawing (s : t) (xs ys : list num) : Drawing :=
  let sx := XYAxes.scale_x (axes2d s) in
  let sy := XYAxes.scale_y (axes2d s) in
  mkDrawing (index_x s) (index_y s) sx sy (line sx sy xs ys).

(** The pixel position of a point of the plane. *)
Definition project (s : t) (p : num * num) : num * num :=
  (XYAxes.apply (XYAxes.scale_x (axes2d s)) (Some (fst p)),
   XYAxes.apply (XYAxes.scale_y (axes2d s)) (Some (snd p))).

(** The domains of the X and of the Y axis. *)
Definition domains (s : t) : (num * num) * (num * num) :=
  (XYAxes.domain (XYAxes.scale_x (axes2d s)),
   XYAxes.domain (XYAxes.scale_y (axes2d s))).

(** The stored indices. *)
Definition indices (s : t) : num * num := (index_x s, index_y s).

(** [preserves P m]: whatever way [m] ends, it leaves [P] as it was. *)
Definition preserves {A : Type} (P : t -> Prop) (m : M A) : Prop :=
  forall s, P s -> P (st (m s)).

(** The dialogs take a text when the modal does not reject it. *)
Definition set_range_accepts (val : string) : bool :=
  negb (modal_rejects set_range_validator val).

Definition set_indices_accepts (n : nat) (val : string) : bool :=
  negb (modal_rejects (set_indices_validator n) val).

(** What [set_indices] asks of one field: its number is an integer of
    [0 .. n-1]. *)
Definition index_in_range (n : nat) (x : option string) : Prop :=
  exists (q : Q) (i : nat),
    JS.Number x = Fin q /\ q == inject_Z (Z.of_nat i) /\ (i < n)%nat.

Local Open Scope xy_scope.

(** A reset followed by the redraw it schedules. *)
Definition reset_then_redraw : M unit := reset ;; frame.

(** The warning state follows the number of points of the snapshot: with
    fewer than two, a redraw raises the flag, shows the label and renders
    no line. *)
Definition warns_on_few_points (s : t) : Prop :=
  (snapshot_points s < 2)%nat ->
  invalid_dims (st (update s)) = true /\
  warning_label (st (update s)) <> [] /\
  evs (update s) = [].

(** The redraw after a reset raises the flag. *)
Definition invalid_after_reset (s : t) : Prop :=
  invalid_dims (st (reset_then_redraw s)) = true.

(** Restoring a layout renders the new indices under the new range only. *)
Definition range_before_indices (base : Layout -> M unit) (config : Layout)
    (s : t) : Prop :=
  forall d : Drawing,
    In (Draw d) (evs (update_layout base config s)) ->
    (drawn_index_x d, drawn_index_y d) = (cfg_index_x config, cfg_index_y config) ->
    XYAxes.domain (drawn_scale_x d) = (min_value config, max_value config) /\
    XYAxes.domain (drawn_scale_y d) = (min_value config, max_value config).

(** A snapshot of two or more points is rendered as the zip of the two
    selected arrays. *)
Definition renders_zip_of_points (s : t) : Prop :=
  (2 <= snapshot_points s)%nat ->
  forall xs ys : list num,
    JS.get (snapshot s) (index_x s) = Some xs ->
    JS.get (snapshot s) (index_y s) = Some ys ->
    path (st (update s)) = Some (map (project s) (combine xs ys)).

(** ** States and inputs of the scenarios *)

Module Scenario.

(** The simulation at time [now], showing the times from -1 up to 3 and
    keeping those from -2 on. *)
Definition sim_at (now : Q) : SimControl :=
  mkSim (Fin now) (Fin 2) (Fin 4) (Fin (-1)) (Fin 4).

(** A plot of [n] dimensions over [-10, 10], showing dimension 0 against
    dimension 1 on a 20 by 20 screen. *)
Definition args (n : nat) : Args :=
  mkArgs (Some n) (Fin (-10)) (Fin 10) (Fin 0) (Fin 1) (Fin 20) (Fin 20).

(** The component of [n] dimensions as constructed: the stream is empty. *)
Definition constructed (n : nat) : t := st (create (sim_at 0) (args n)).

(** The components of one, two and four dimensions as constructed. *)
Definition empty1 : t := Eval vm_compute in constructed 1.

Definition empty2 : t := Eval vm_compute in constructed 2.

Definition empty4 : t := Eval vm_compute in constructed 4.

(** The state after a sample has arrived at time [now]. *)
Definition receive (now : Q) (sample : list num) (s : t) : t :=
  st (on_message sample (set_sim (sim_at now) s)).

(** N = 3 and the stream has received [0,0,0], [1,2,3], [4,5,6]. *)
Definition three_samples : t :=
  Eval vm_compute in
    receive 2 [Fin 4; Fin 5; Fin 6]
      (receive 1 [Fin 1; Fin 2; Fin 3]
         (receive 0 [Fin 0; Fin 0; Fin 0] (constructed 3))).

(** N = 1: the stream has received [0], [1], [4] and both indices have
    been set to 0. *)
Definition one_dimension : t :=
  Eval vm_compute in
    st (update_indices (Fin 0) (Fin 0)
          (receive 2 [Fin 4]
             (receive 1 [Fin 1]
                (receive 0 [Fin 0] (constructed 1))))).

(** A base class that restores nothing of the state modelled here. *)
Definition no_base : Layout -> M unit := fun _ => ret tt.

(** A saved layout: range [-1, 1], dimension 1 against dimension 2. *)
Definition saved_layout : Layout :=
  mkLayout (Fin (-1)) (Fin 1) (Fin 1) (Fin 2).

(** A layout that no dialog would take: the range is not ordered and
    does not cross zero, the indices are out of bounds and fractional. *)
Definition unchecked_layout : Layout :=
  mkLayout (Fin 7) (Fin 3) (Fin 9) (Fin (5 # 2)).

End Scenario.

(** ** Vocabulary of the further properties *)

(** Half the least positive double, 2^-1075: a positive product of two
    doubles is rounded to zero exactly when it is not above this bound. *)
Definition underflow_bound : Q := 1 # (2 ^ 1075).

(** What the constructor sets up and every method keeps: the store has
    [n_lines] dimensions, at least one; the flag is up exactly for a single
    dimension, and the warning label holds its rectangle exactly then. *)
Definition settled (s : t) : Prop :=
  dims s = n_lines s /\
  (1 <= n_lines s)%nat /\
  invalid_dims s = (n_lines s <=? 1)%nat /\
  length (warning_label s) = (if (n_lines s <=? 1)%nat then 1 else 0)%nat.

(** The state before the first redraw: the flag is down, the label empty. *)
Definition fresh (s : t) : Prop :=
  dims s = n_lines s /\
  (1 <= n_lines s)%nat /\
  invalid_dims s = false /\
  warning_label s = [].

(** The part of the state that [settled] speaks of. *)
Definition warning_view (s : t) : nat * nat * bool * nat :=
  (dims s, n_lines s, invalid_dims s, length (warning_label s)).

(** The calls that reach the component: its listeners, its menu entries,
    the restore of a layout and its methods called from outside. *)
Inductive Call : Type :=
| CallOnMessage : list num -> Call
| CallFrame : Call
| CallAdjustTime : SimControl -> Call
| CallReset : Call
| CallUpdate : Call
| CallOnResize : num -> num -> Call
| CallSetRange : string -> Call
| CallSetIndices : string -> Call
| CallUpdateRange : num -> num -> Call
| CallUpdateIndices : num -> num -> Call
| CallUpdateLayout : Layout -> Call.

(** The state that a call leaves, however it ends. *)
Definition after (base : Layout -> M unit) (c : Call) (s : t) : t :=
  match c with
  | CallOnMessage data => st (on_message data s)
  | CallFrame => st (frame s)
  | CallAdjustTime sim' => st (adjust_time sim' s)
  | CallReset => st (reset s)
  | CallUpdate => st (update s)
  | CallOnResize w h => st (on_resize w h s)
  | CallSetRange val => st (set_range val s)
  | CallSetIndices val => st (set_indices val s)
  | CallUpdateRange min max => st (update_range min max s)
  | CallUpdateIndices ix iy => st (update_indices ix iy s)
  | CallUpdateLayout config => st (update_layout base config s)
  end.

(** The states of a component: the one its constructor leaves, and those
    that calls lead to from there. *)
Inductive reachable (base : Layout -> M unit) : t -> Prop :=
| reach_create : forall (sim0 : SimControl) (args : Args),
    reachable base (st (create sim0 args))
| reach_after : forall (c : Call) (s : t),
    reachable base s -> reachable base (after base c s).

(** The range as the axes hold it: bounds, domains and tick values. *)
Definition range_fields (s : t) : num * num * (num * num) * (num * num)
                                  * (num * num) * (num * num) :=
  (XYAxes.min_val (axes2d s), XYAxes.max_val (axes2d s),
   XYAxes.domain (XYAxes.scale_x (axes2d s)),
   XYAxes.domain (XYAxes.scale_y (axes2d s)),
   XYAxes.tick_values_x (axes2d s), XYAxes.tick_values_y (axes2d s)).

(** A plot of three dimensions that receives a sample, is reset, has a
    layout restored that no dialog would take, and redraws. *)
Definition example_life : t :=
  after Scenario.no_base CallFrame
    (after Scenario.no_base (CallUpdateLayout Scenario.unchecked_layout)
       (after Scenario.no_base CallReset
          (after Scenario.no_base (CallOnMessage [Fin 1; Fin 2; Fin 3])
             (st (create (Scenario.sim_at 0) (Scenario.args 3)))))).

(** [same_inputs s s']: the two states agree on all that a redraw reads
    to decide what it renders: the simulation control, the axes, the indices
    and the store once it has cleared out old values. *)
Definition same_inputs (s s' : t) : Prop :=
  sim s' = sim s /\ axes2d s' = axes2d s /\
  index_x s' = index_x s /\ index_y s' = index_y s /\
  DataStore.update (sim s') (data_store s') = DataStore.update (sim s) (data_store s).

(** The two axes are in step: one pair of bounds is the range of the
    component, the domain of either scale and the tick values of either
    axis. *)
Definition in_step (s : t) : Prop :=
  exists min max : num,
    range_fields s = (min, max, (min, max), (min, max), (min, max), (min, max)).

(** ** Facts about the JavaScript values *)

Section JSFacts.

Lemma lt_Fin (a b : Q) : JS.lt (Fin a) (Fin b) = true <-> a < b.
Proof.
  unfold JS.lt, JS.Qlt_bool. rewrite negb_true_iff.
  split; intro H.
  - apply Qnot_le_lt. intro Hle. apply Qle_bool_iff in Hle. congruence.
  - destruct (Qle_bool b a) eqn:E; [| reflexivity].
    apply Qle_bool_iff in E. exfalso. apply (Qlt_not_le _ _ H E).
Qed.

Lemma le_Fin (a b : Q) : JS.le (Fin a) (Fin b) = true <-> a <= b.
Proof. unfold JS.le. apply Qle_bool_iff. Qed.

Lemma ge_Fin (a b : Q) : JS.ge (Fin a) (Fin b) = true <-> b <= a.
Proof. unfold JS.ge. apply le_Fin. Qed.

Lemma eqb_Fin (a b : Q) : JS.eqb (Fin a) (Fin b) = true <-> a == b.
Proof. unfold JS.eqb. apply Qeq_bool_iff. Qed.

(** Rounding towards zero leaves exactly the integers where they are. *)
Lemma Qtrunc_inject_Z (z : Z) : JS.Qtrunc (inject_Z z) = z.
Proof.
  unfold JS.Qtrunc. destruct (Qle_bool 0 (inject_Z z)).
  - apply Qfloor_Z.
  - apply Qceiling_Z.
Qed.

Lemma Qtrunc_comp (p q : Q) : p == q -> JS.Qtrunc p = JS.Qtrunc q.
Proof.
  intro H. unfold JS.Qtrunc.
  assert (Hb : Qle_bool 0 p = Qle_bool 0 q).
  { destruct (Qle_bool 0 p) eqn:E1, (Qle_bool 0 q) eqn:E2; try reflexivity.
    - apply Qle_bool_iff in E1. rewrite H in E1.
      apply Qle_bool_iff in E1. congruence.
    - apply Qle_bool_iff in E2. rewrite <- H in E2.
      apply Qle_bool_iff in E2. congruence. }
  rewrite Hb. destruct (Qle_bool 0 q).
  - now apply Qfloor_comp.
  - now apply Qceiling_comp.
Qed.

Lemma is_integer_iff (q : Q) :
  JS.is_integer q = true <-> exists z : Z, q == inject_Z z.
Proof.
  unfold JS.is_integer. rewrite Qeq_bool_iff. split.
  - intro H. exists (JS.Qtrunc q). now symmetry.
  - intros [z Hz]. rewrite (Qtrunc_comp Hz), Qtrunc_inject_Z. now symmetry.
Qed.

(** Indexing an array with the number of a position inside it. *)
Lemma get_of_nat {A : Type} (arr : list A) (i : nat) :
  JS.get arr (JS.of_nat i) = nth_error arr i.
Proof.
  unfold JS.get, JS.of_nat, JS.of_Z, JS.is_integer.
  rewrite Qtrunc_inject_Z.
  assert (H1 : Qeq_bool (inject_Z (Z.of_nat i)) (inject_Z (Z.of_nat i)) = true)
    by (apply Qeq_bool_iff; reflexivity).
  assert (H2 : Qle_bool 0 (inject_Z (Z.of_nat i)) = true).
  { apply Qle_bool_iff. change 0 with (inject_Z 0).
    rewrite <- Zle_Qle. lia. }
  rewrite H1, H2. simpl. now rewrite Nat2Z.id.
Qed.

End JSFacts.

(** ** Rounding to a double: sign and underflow *)

Section Rounding.

Lemma round_half_even_nonneg (n d : Z) :
  (0 <= n)%Z -> (0 < d)%Z -> (0 <= JS.round_half_even n d)%Z.
Proof.
  intros Hn Hd. unfold JS.round_half_even.
  pose proof (Z_div_mod n d ltac:(lia)) as H.
  destruct (Z.div_eucl n d) as [quot rem]. destruct H as [Heq Hrem].
  assert (Hq : (0 <= quot)%Z) by nia.
  destruct (2 * rem ?= d)%Z; [destruct (Z.even quot)| |]; lia.
Qed.

(** The nearest integer is zero up to one half, the tie included. *)
Lemma round_half_even_zero_iff (n d : Z) :
  (0 <= n)%Z -> (0 < d)%Z ->
  (JS.round_half_even n d = 0%Z <-> (2 * n <= d)%Z).
Proof.
  intros Hn Hd. unfold JS.round_half_even.
  pose proof (Z_div_mod n d ltac:(lia)) as H.
  destruct (Z.div_eucl n d) as [quot rem]. destruct H as [Heq Hrem].
  assert (Hq : (0 <= quot)%Z) by nia.
  destruct (Z.compare_spec (2 * rem) d) as [Hc|Hc|Hc].
  - destruct (Z.even quot) eqn:Ev.
    + split; intro H; [subst quot; lia|].
      assert (quot = 0%Z \/ 1 <= quot)%Z as [E|E] by lia; [exact E | nia].
    + split; intro H; [lia|].
      assert (quot = 0%Z \/ 1 <= quot)%Z as [E|E] by lia;
        [subst quot; discriminate | nia].
  - split; intro H; [subst quot; lia|].
    assert (quot = 0%Z \/ 1 <= quot)%Z as [E|E] by lia; [exact E | nia].
  - split; intro H; [lia|].
    assert (quot = 0%Z \/ 1 <= quot)%Z as [E|E] by lia; [lia | nia].
Qed.

(** [floor_log2 p d] is not above the binary logarithm of [p / d]. *)
Lemma floor_log2_lower (p d : positive) :
  ((0 <= JS.floor_log2 p d)%Z ->
   (Zpos d * 2 ^ JS.floor_log2 p d <= Zpos p)%Z) /\
  ((JS.floor_log2 p d < 0)%Z ->
   (Zpos d <= Zpos p * 2 ^ (- JS.floor_log2 p d))%Z).
Proof.
  unfold JS.floor_log2.
  destruct (Z.log2_spec (Zpos p) ltac:(lia)) as [Hp _].
  destruct (Z.log2_spec (Zpos d) ltac:(lia)) as [_ Hd].
  pose proof (Z.log2_nonneg (Zpos p)) as Hlp.
  pose proof (Z.log2_nonneg (Zpos d)) as Hld.
  set (lp := Z.log2 (Zpos p)) in *. set (ld := Z.log2 (Zpos d)) in *.
  clearbody lp ld.
  replace (Z.succ ld) with (ld + 1)%Z in Hd by lia.
  rewrite Z.pow_add_r in Hd by lia. change (2 ^ 1)%Z with 2%Z in Hd.
  assert (Hpd : (0 < 2 ^ ld)%Z) by (apply Z.pow_pos_nonneg; lia).
  destruct (0 <=? lp - ld)%Z eqn:Ek.
  - apply Z.leb_le in Ek.
    destruct (Zpos p <? Zpos d * 2 ^ (lp - ld))%Z eqn:Eb.
    + split; intro He.
      * (* d * 2^(k-1) < 2^(ld+1) * 2^(k-1) = 2^lp <= p *)
        assert (E : (2 ^ lp = 2 ^ ld * 2 * 2 ^ (lp - ld - 1))%Z).
        { replace lp with (ld + 1 + (lp - ld - 1))%Z at 1 by lia.
          rewrite !Z.pow_add_r by lia. reflexivity. }
        assert (Hpk : (0 < 2 ^ (lp - ld - 1))%Z)
          by (apply Z.pow_pos_nonneg; lia).
        nia.
      * assert (E : (lp - ld - 1 = -1)%Z) by lia.
        rewrite E. change (- -1)%Z with 1%Z. change (2 ^ 1)%Z with 2%Z.
        assert (lp = ld) by lia. subst lp. lia.
    + apply Z.ltb_ge in Eb. split; intro He; [exact Eb | lia].
  - apply Z.leb_gt in Ek.
    destruct (Zpos p * 2 ^ (- (lp - ld)) <? Zpos d)%Z eqn:Eb.
    + split; intro He; [lia|].
      (* d < 2^(ld+1) = 2^lp * 2^(1-k) <= p * 2^(1-k) *)
      assert (E : (2 ^ ld * 2 = 2 ^ lp * 2 ^ (- (lp - ld - 1)))%Z).
      { rewrite <- Z.pow_add_r by lia.
        change 2%Z with (2 ^ 1)%Z at 2. rewrite <- Z.pow_add_r by lia.
        f_equal. lia. }
      assert (Hpk : (0 < 2 ^ (- (lp - ld - 1)))%Z)
        by (apply Z.pow_pos_nonneg; lia).
      nia.
    + apply Z.ltb_ge in Eb. split; intro He; [lia | exact Eb].
Qed.

(** A positive quotient is rounded to zero exactly when it is at most
    2^-1075, half the least positive double. *)
Lemma round_pos_le_zero (p d : positive) :
  JS.le (JS.round_pos false p d) (Fin 0) = true <->
  (Zpos p * 2 ^ 1075 <= Zpos d)%Z.
Proof.
  unfold JS.round_pos.
  destruct (floor_log2_lower p d) as [Hge Hlt].
  set (e := JS.floor_log2 p d) in *. clearbody e.
  set (u := Z.max (e - 52) (-1074)).
  assert (Hu : (-1074 <= u)%Z) by (subst u; lia).
  assert (Hu' : (u = e - 52 \/ u = -1074)%Z) by (subst u; lia).
  clearbody u.
  destruct (u <? 0)%Z eqn:Eu.
  - apply Z.ltb_lt in Eu.
    assert (Hpu : (0 < 2 ^ (- u))%Z) by (apply Z.pow_pos_nonneg; lia).
    assert (Hm := round_half_even_nonneg (n := Zpos p * 2 ^ (- u)) (d := Zpos d)
                    ltac:(nia) ltac:(lia)).
    assert (Hz := round_half_even_zero_iff (n := Zpos p * 2 ^ (- u)) (d := Zpos d)
                    ltac:(nia) ltac:(lia)).
    set (m := JS.round_half_even (Zpos p * 2 ^ (- u)) (Zpos d)) in *.
    clearbody m.
    cbn [JS.signed]. rewrite le_Fin, Qred_correct.
    assert (Hq : m # Z.to_pos (2 ^ (- u)) <= 0 <-> m = 0%Z).
    { unfold Qle. cbn [Qnum Qden]. lia. }
    rewrite Hq, Hz.
    assert (E : (2 ^ 1075 = 2 * 2 ^ (- u) * 2 ^ (1074 + u))%Z).
    { replace 1075%Z with (1 + - u + (1074 + u))%Z at 1 by lia.
      rewrite !Z.pow_add_r by lia. reflexivity. }
    assert (Hp1 : (1 <= 2 ^ (1074 + u))%Z)
      by (apply Z.lt_pred_le, Z.pow_pos_nonneg; lia).
    rewrite E. split; intro H.
    + destruct Hu' as [Hu'|Hu'].
      * (* the mantissa has 53 bits: it is not zero *)
        exfalso.
        destruct (Z_lt_le_dec e 0) as [He|He].
        -- specialize (Hlt He).
           assert (E2 : (2 ^ (- u) = 2 ^ 52 * 2 ^ (- e))%Z).
           { rewrite <- Z.pow_add_r by lia. f_equal. lia. }
           assert (Hpe : (0 < 2 ^ (- e))%Z) by (apply Z.pow_pos_nonneg; lia).
           rewrite E2 in H. change (2 ^ 52)%Z with 4503599627370496%Z in H.
           nia.
        -- specialize (Hge He).
           assert (Hpe : (0 < 2 ^ e)%Z) by (apply Z.pow_pos_nonneg; lia).
           nia.
      * subst u. change (1074 + -1074)%Z with 0%Z. change (2 ^ 0)%Z with 1%Z.
        lia.
    + nia.
  - apply Z.ltb_ge in Eu.
    assert (He : (0 <= e)%Z) by lia. specialize (Hge He).
    assert (Hue : (u = e - 52)%Z) by lia.
    assert (E2 : (2 ^ e = 2 ^ 52 * 2 ^ u)%Z).
    { rewrite <- Z.pow_add_r by lia. f_equal. lia. }
    change (2 ^ 52)%Z with 4503599627370496%Z in E2.
    assert (Hpu : (0 < 2 ^ u)%Z) by (apply Z.pow_pos_nonneg; lia).
    assert (Hm := round_half_even_nonneg (n := Zpos p) (d := Zpos d * 2 ^ u)
                    ltac:(lia) ltac:(nia)).
    assert (Hz := round_half_even_zero_iff (n := Zpos p) (d := Zpos d * 2 ^ u)
                    ltac:(lia) ltac:(nia)).
    set (m := JS.round_half_even (Zpos p) (Zpos d * 2 ^ u)) in *.
    clearbody m.
    assert (Hm1 : (1 <= m)%Z).
    { assert (m <> 0%Z); [|lia]. intro H0. apply Hz in H0. nia. }
    assert (Hbig : (Zpos d < Zpos p * 2 ^ 1075)%Z).
    { assert (0 < 2 ^ 1075)%Z by (apply Z.pow_pos_nonneg; lia).
      assert (1 < 2 ^ 1075)%Z by (apply Z.pow_gt_1; lia).
      nia. }
    split; intro H; [|lia]. exfalso.
    destruct (2 ^ 1024 <=? m * 2 ^ u)%Z; [discriminate|].
    cbn [JS.signed] in H. apply le_Fin in H.
    change 0 with (inject_Z 0) in H. rewrite <- Zle_Qle in H. nia.
Qed.

Lemma round_neg_le_zero (p d : positive) :
  JS.le (JS.round_pos true p d) (Fin 0) = true.
Proof.
  unfold JS.round_pos.
  set (e := JS.floor_log2 p d). clearbody e.
  set (u := Z.max (e - 52) (-1074)). clearbody u.
  destruct (u <? 0)%Z eqn:Eu.
  - apply Z.ltb_lt in Eu.
    assert (Hpu : (0 < 2 ^ (- u))%Z) by (apply Z.pow_pos_nonneg; lia).
    assert (Hm := round_half_even_nonneg (n := Zpos p * 2 ^ (- u)) (d := Zpos d)
                    ltac:(nia) ltac:(lia)).
    set (m := JS.round_half_even (Zpos p * 2 ^ (- u)) (Zpos d)) in *.
    clearbody m.
    cbn [JS.signed]. rewrite le_Fin, Qred_correct.
    unfold Qle. cbn [Qnum Qden Qopp]. lia.
  - apply Z.ltb_ge in Eu.
    assert (Hpu : (0 < 2 ^ u)%Z) by (apply Z.pow_pos_nonneg; lia).
    assert (Hm := round_half_even_nonneg (n := Zpos p) (d := Zpos d * 2 ^ u)
                    ltac:(lia) ltac:(nia)).
    set (m := JS.round_half_even (Zpos p) (Zpos d * 2 ^ u)) in *.
    clearbody m.
    destruct (2 ^ 1024 <=? m * 2 ^ u)%Z; [reflexivity|].
    cbn [JS.signed]. rewrite le_Fin.
    unfold Qle, inject_Z. cbn [Qnum Qden Qopp]. nia.
Qed.

(** The double nearest to [q] is at most zero exactly when [q] is at most
    2^-1075: every negative number, zero, and the positive numbers that
    underflow. *)
Lemma le_round_zero (q : Q) :
  JS.le (JS.round q) (Fin 0) = true <-> q <= underflow_bound.
Proof.
  destruct q as [n d]. unfold JS.round, underflow_bound, Qle.
  cbn [Qnum Qden]. rewrite Pos2Z.inj_pow.
  destruct n as [|p|p].
  - split; intro H; [lia | reflexivity].
  - rewrite round_pos_le_zero. lia.
  - split; intro H; [lia | apply round_neg_le_zero].
Qed.

End Rounding.
(** ** The cases of [update] *)

Lemma dims_evict s : dims (evict s) = dims s.
Proof. unfold dims, evict. simpl. apply length_map. Qed.

Lemma update_invalid s :
  (dims s <= 1)%nat -> update s = mkRes (Ok tt) (warn (evict s)) [].
Proof.
  intro H. unfold update, bind, this, modify. cbn [out st evs].
  fold (evict s). fold (dims (evict s)). rewrite dims_evict.
  destruct (Nat.ltb_spec 1 (dims s)); [lia|].
  unfold warn. destruct (invalid_dims (evict s)); reflexivity.
Qed.

Lemma update_valid_dims s :
  (1 < dims s)%nat ->
  update s =
    match JS.get (snapshot s) (index_x s) with
    | None => mkRes TypeError (evict s) []
    | Some [] => mkRes (Ok tt) (unwarn (evict s)) []
    | Some xs =>
        match JS.get (snapshot s) (index_y s) with
        | None => mkRes TypeError (evict s) []
        | Some ys =>
            mkRes (Ok tt) (unwarn (drawn (evict s) xs ys)) [Draw (drawing s xs ys)]
        end
    end.
Proof.
  intro H. unfold update, bind, this, modify. cbn [out st evs].
  fold (evict s). fold (dims (evict s)). rewrite dims_evict.
  destruct (Nat.ltb_spec 1 (dims s)); [|lia].
  change (DataStore.get_shown_data (sim (evict s)) (data_store (evict s)))
    with (snapshot s).
  change (index_x (evict s)) with (index_x s).
  change (index_y (evict s)) with (index_y s).
  destruct (JS.get (snapshot s) (index_x s)) as [xs|]; [|reflexivity].
  destruct xs as [|x xs].
  - unfold unwarn.
    cbn [Z.leb Z.of_nat length Z.sub Z.add Z.opp Z.compare out st evs ret].
    change (invalid_dims (evict s)) with (invalid_dims s).
    destruct (invalid_dims s); reflexivity.
  - assert (Hl : (0 <=? Z.of_nat (length (x :: xs)) - 1)%Z = true).
    { apply Z.leb_le. simpl length. lia. }
    rewrite Hl.
    destruct (JS.get (snapshot s) (index_y s)) as [ys|]; [|reflexivity].
    unfold unwarn, drawn, drawing, emit.
    cbn [out st evs ret app invalid_dims set_recent_circle set_path].
    change (invalid_dims (evict s)) with (invalid_dims s).
    destruct (invalid_dims s); reflexivity.
Qed.

Lemma count_before_skipn limit ts :
  DataStore.count_before limit (skipn (DataStore.count_before limit ts) ts) = O.
Proof.
  induction ts as [|t0 ts IH]; simpl; [reflexivity|].
  destruct (JS.lt t0 limit) eqn:E; simpl.
  - exact IH.
  - now rewrite E.
Qed.

Lemma map_skipn_0 {A} (l : list (list A)) : map (skipn 0) l = l.
Proof.
  induction l as [|x l IH]; [reflexivity|].
  change (x :: map (skipn 0) l = x :: l). now rewrite IH.
Qed.

Lemma DataStore_update_idem sim d :
  DataStore.update sim (DataStore.update sim d) = DataStore.update sim d.
Proof.
  unfold DataStore.update. cbn [DataStore.times DataStore.data].
  rewrite count_before_skipn, map_skipn_0. reflexivity.
Qed.

Lemma evict_idem s : evict (evict s) = evict s.
Proof.
  unfold evict. cbn [sim data_store set_data_store].
  now rewrite DataStore_update_idem.
Qed.

Lemma evict_warn s : evict (warn s) = warn (evict s).
Proof. destruct s as [? ? ? ? ? ? ? ? ? [|] ? ? ? ? ?]; reflexivity. Qed.

Lemma evict_unwarn s : evict (unwarn s) = unwarn (evict s).
Proof. destruct s as [? ? ? ? ? ? ? ? ? [|] ? ? ? ? ?]; reflexivity. Qed.

Lemma evict_drawn s xs ys : evict (drawn s xs ys) = drawn (evict s) xs ys.
Proof. destruct s; reflexivity. Qed.

Lemma warn_idem s : warn (warn s) = warn s.
Proof. destruct s as [? ? ? ? ? ? ? ? ? [|] ? ? ? ? ?]; reflexivity. Qed.

Lemma unwarn_drawn_idem s xs ys :
  unwarn (drawn (unwarn (drawn s xs ys)) xs ys) = unwarn (drawn s xs ys).
Proof. destruct s as [? ? ? ? ? ? ? ? ? [|] ? ? ? ? ?]; reflexivity. Qed.

Lemma unwarn_idem s : unwarn (unwarn s) = unwarn s.
Proof. destruct s as [? ? ? ? ? ? ? ? ? [|] ? ? ? ? ?]; reflexivity. Qed.

Lemma snapshot_evict s : snapshot (evict s) = snapshot s.
Proof.
  unfold snapshot, evict. cbn [sim data_store set_data_store].
  now rewrite DataStore_update_idem.
Qed.

Lemma snapshot_warn s : snapshot (warn s) = snapshot s.
Proof. destruct s as [? ? ? ? ? ? ? ? ? [|] ? ? ? ? ?]; reflexivity. Qed.
Lemma snapshot_unwarn s : snapshot (unwarn s) = snapshot s.
Proof. destruct s as [? ? ? ? ? ? ? ? ? [|] ? ? ? ? ?]; reflexivity. Qed.
Lemma snapshot_drawn s xs ys : snapshot (drawn s xs ys) = snapshot s.
Proof. destruct s; reflexivity. Qed.

(** ** The validators of the dialogs *)

Lemma two_fields (nums : list string) :
  (length nums =? 2)%nat = true -> exists a b, nums = [a; b].
Proof.
  destruct nums as [|a [|b [|c rest]]]; simpl; try discriminate.
  intros _. now exists a, b.
Qed.

Lemma validator_not_empty (v : string -> bool) :
  v EmptyString = false ->
  forall val, negb (modal_rejects v val) = v val.
Proof.
  intros Hv val. unfold modal_rejects.
  destruct (String.eqb_spec val EmptyString) as [->|Hne].
  - rewrite Hv. reflexivity.
  - now rewrite orb_false_r, negb_involutive.
Qed.

Lemma set_range_accepts_validator val :
  set_range_accepts val = set_range_validator val.
Proof. apply validator_not_empty. reflexivity. Qed.

Lemma set_indices_accepts_validator n val :
  set_indices_accepts n val = set_indices_validator n val.
Proof.
  apply validator_not_empty. reflexivity.
Qed.

Lemma index_field_checks (n : nat) (x : option string) :
  JS.loose_eq (JS.parseInt_num (JS.Number x)) x = true /\
  JS.lt (JS.Number x) (JS.of_nat n) = true /\
  JS.ge (JS.Number x) (Fin 0) = true
  <-> index_in_range n x.
Proof.
  unfold index_in_range. split.
  - intros (Heq & Hlt & Hge).
    destruct x as [a|]; [|discriminate]. unfold JS.loose_eq in Heq.
    destruct (JS.Number (Some a)) as [|q|sg]; [discriminate | | discriminate].
    cbn [JS.parseInt_num JS.of_Z] in Heq.
    apply eqb_Fin in Heq. apply ge_Fin in Hge.
    unfold JS.of_nat, JS.of_Z in Hlt. apply lt_Fin in Hlt.
    assert (H0 : (0 <= JS.Qtrunc q)%Z).
    { rewrite Zle_Qle. now rewrite Heq. }
    exists q, (Z.to_nat (JS.Qtrunc q)). split; [reflexivity|].
    rewrite Z2Nat.id by exact H0. split; [now symmetry|].
    rewrite <- Heq in Hlt. rewrite <- Zlt_Qlt in Hlt. lia.
  - intros (q & i & Hq & Hi & Hn).
    rewrite Hq.
    assert (Ht : JS.Qtrunc q = Z.of_nat i).
    { rewrite (Qtrunc_comp Hi). apply Qtrunc_inject_Z. }
    repeat split.
    + destruct x as [a|]; [|discriminate]. unfold JS.loose_eq. rewrite Hq.
      cbn [JS.parseInt_num JS.of_Z]. apply eqb_Fin. rewrite Ht. now symmetry.
    + unfold JS.of_nat, JS.of_Z. apply lt_Fin. rewrite Hi.
      rewrite <- Zlt_Qlt. lia.
    + apply ge_Fin. rewrite Hi. change 0 with (inject_Z 0).
      rewrite <- Zle_Qle. lia.
Qed.

Lemma set_indices_validator_iff (n : nat) (val : string) :
  set_indices_validator n val = true <->
  exists a b : string,
    JS.split_comma val = [a; b] /\
    index_in_range n (Some a) /\ index_in_range n (Some b).
Proof.
  unfold set_indices_validator. split.
  - intro H.
    apply andb_prop in H. destruct H as [H H0].
    apply andb_prop in H. destruct H as [H H1].
    apply andb_prop in H. destruct H as [H Hlen].
    apply andb_prop in H. destruct H as [Hi0 Hi1].
    apply andb_prop in H0. destruct H0 as [Hlt0 Hge0].
    apply andb_prop in H1. destruct H1 as [Hlt1 Hge1].
    destruct (two_fields _ Hlen) as (a & b & Hab).
    rewrite Hab in *. cbn [nth_error] in *.
    exists a, b. split; [reflexivity|].
    split; apply index_field_checks; auto.
  - intros (a & b & Hab & Ha & Hb).
    rewrite Hab. cbn [length Nat.eqb nth_error].
    apply index_field_checks in Ha. apply index_field_checks in Hb.
    destruct Ha as (-> & -> & ->). destruct Hb as (-> & -> & ->). reflexivity.
Qed.
(** ** What the methods leave as it is *)

Lemma preserves_bind {A B} (P : t -> Prop) (m : M A) (f : A -> M B) :
  preserves P m -> (forall a, preserves P (f a)) -> preserves P (bind m f).
Proof.
  intros Hm Hf s Hs. unfold bind. specialize (Hm s Hs).
  destruct (out (m s)) as [a|]; cbn [st]; [apply Hf|]; exact Hm.
Qed.

Lemma st_bind_modify {B : Type} (f : t -> t) (k : unit -> M B) (s : t) :
  st (bind (modify f) k s) = st (k tt (f s)).
Proof. reflexivity. Qed.

Lemma st_bind_this {B : Type} (k : t -> M B) (s : t) :
  st (bind this k s) = st (k s s).
Proof. reflexivity. Qed.

(** What the first step establishes and the rest preserves holds at the
    end, wherever the run stops. *)
Lemma bind_establishes {A B : Type} (P : t -> Prop) (m : M A) (f : A -> M B)
    (s : t) :
  P (st (m s)) -> (forall a, preserves P (f a)) -> P (st (bind m f s)).
Proof.
  intros Hm Hf. unfold bind.
  destruct (out (m s)) as [a|]; cbn [st]; [apply Hf|]; exact Hm.
Qed.

(** A step that ends normally hands its state to the rest. *)
Lemma bind_ok {A B : Type} (m : M A) (f : A -> M B) (s : t) (a : A) :
  out (m s) = Ok a ->
  bind m f s =
  mkRes (out (f a (st (m s)))) (st (f a (st (m s))))
        (evs (m s) ++ evs (f a (st (m s)))).
Proof. intro H. unfold bind. now rewrite H. Qed.

Lemma bind_error {A B : Type} (m : M A) (f : A -> M B) (s : t) :
  out (m s) = TypeError ->
  bind m f s = mkRes TypeError (st (m s)) (evs (m s)).
Proof. intro H. unfold bind. now rewrite H. Qed.

Lemma st_bind_completes {A B : Type} (m : M A) (f : A -> M B) (s : t) :
  completes (m s) = true -> exists a, st (bind m f s) = st (f a (st (m s))).
Proof.
  unfold completes, bind. destruct (out (m s)) as [a|]; [|discriminate].
  intros _. exists a. reflexivity.
Qed.

Lemma preserves_ret {A} (P : t -> Prop) (a : A) : preserves P (ret a).
Proof. intros s Hs. exact Hs. Qed.

Lemma preserves_emit (P : t -> Prop) e : preserves P (emit e).
Proof. intros s Hs. exact Hs. Qed.

Lemma preserves_modify (P : t -> Prop) (f : t -> t) :
  (forall s, P s -> P (f s)) -> preserves P (modify f).
Proof. intros Hf s Hs. apply Hf, Hs. Qed.

(** [update] writes the store, the path, the circle and the warning. *)
Lemma update_frame (s : t) :
  let s' := st (update s) in
  axes2d s' = axes2d s /\ index_x s' = index_x s /\ index_y s' = index_y s /\
  n_lines s' = n_lines s /\ sim s' = sim s /\ dims s' = dims s /\
  screen_width s' = screen_width s /\ screen_height s' = screen_height s /\
  pending_update s' = pending_update s.
Proof.
  cbv zeta.
  destruct (Nat.ltb_spec 1 (dims s)) as [Hd|Hd].
  - rewrite (update_valid_dims s Hd).
    destruct (JS.get (snapshot s) (index_x s)) as [[|x xs]|];
      [| destruct (JS.get (snapshot s) (index_y s)) as [ys|] |];
      cbn [st]; rewrite <- (dims_evict s);
      destruct s as [? ? ? ? ? ? ? ? ? [|] ? ? ? ? ?]; repeat split; reflexivity.
  - rewrite (update_invalid s Hd). cbn [st]. rewrite <- (dims_evict s).
    destruct s as [? ? ? ? ? ? ? ? ? [|] ? ? ? ? ?]; repeat split;
      unfold dims; cbn; reflexivity.
Qed.

Lemma preserves_update_domains d : preserves (fun s => domains s = d) update.
Proof.
  intros s Hs. unfold domains. destruct (update_frame s) as (-> & _). exact Hs.
Qed.

Lemma preserves_update_indices i : preserves (fun s => indices s = i) update.
Proof.
  intros s Hs. unfold indices.
  destruct (update_frame s) as (_ & -> & -> & _). exact Hs.
Qed.

Lemma preserves_on_resize_domains d w h :
  preserves (fun s => domains s = d) (on_resize w h).
Proof.
  unfold on_resize.
  repeat (apply preserves_bind; [|intros _]);
    try (apply preserves_modify; intros s Hs; exact Hs).
  apply preserves_update_domains.
Qed.

Lemma preserves_on_resize_indices i w h :
  preserves (fun s => indices s = i) (on_resize w h).
Proof.
  unfold on_resize.
  repeat (apply preserves_bind; [|intros _]);
    try (apply preserves_modify; intros s Hs; exact Hs).
  apply preserves_update_indices.
Qed.

Lemma preserves_save_layout (P : t -> Prop) : preserves P save_layout.
Proof. intros s Hs. exact Hs. Qed.

(** [update_range] sets both domains, whatever it is given and however
    the redraw ends. *)
Lemma update_range_domains (min max : num) (s : t) :
  domains (st (update_range min max s)) = ((min, max), (min, max)).
Proof.
  unfold update_range. rewrite st_bind_modify, st_bind_this.
  apply preserves_on_resize_domains. reflexivity.
Qed.

Lemma preserves_update_range_indices i min max :
  preserves (fun s => indices s = i) (update_range min max).
Proof.
  unfold update_range.
  apply preserves_bind; [apply preserves_modify; intros s Hs; exact Hs|intros _].
  apply preserves_bind; [intros s Hs; exact Hs|intros s1].
  apply preserves_on_resize_indices.
Qed.

Lemma update_indices_indices (ix iy : num) (s : t) :
  indices (st (update_indices ix iy s)) = (ix, iy).
Proof.
  unfold update_indices. rewrite !st_bind_modify.
  apply preserves_update_indices. reflexivity.
Qed.

Lemma preserves_update_indices_domains d ix iy :
  preserves (fun s => domains s = d) (update_indices ix iy).
Proof.
  unfold update_indices.
  repeat (apply preserves_bind; [|intros _]);
    try (apply preserves_modify; intros s Hs; exact Hs).
  apply preserves_update_domains.
Qed.

(** ** What the methods emit *)

Lemma evs_bind {A B : Type} (m : M A) (f : A -> M B) (s : t) :
  evs (bind m f s) =
  evs (m s) ++ match out (m s) with
               | Ok a => evs (f a (st (m s)))
               | TypeError => []
               end.
Proof.
  unfold bind. destruct (out (m s)); cbn [evs]; [reflexivity|].
  now rewrite app_nil_r.
Qed.

Lemma on_resize_evs (w h : num) (s : t) :
  evs (on_resize w h s) =
  evs (update (set_axes2d (XYAxes.on_resize w h (axes2d s)) s)).
Proof.
  unfold on_resize. rewrite evs_bind. cbn [modify evs out st app].
  rewrite evs_bind.
  destruct (out (update _)); [|apply app_nil_r].
  rewrite !evs_bind. cbn [modify evs out st app]. apply app_nil_r.
Qed.

Lemma update_range_evs (min max : num) (s : t) :
  exists s1 : t,
    evs (update_range min max s) = evs (update s1) /\
    indices s1 = indices s /\
    domains s1 = ((min, max), (min, max)).
Proof.
  unfold update_range. rewrite evs_bind. cbn [modify evs out st app].
  rewrite evs_bind. cbn [this evs out st app].
  rewrite on_resize_evs.
  eexists. split; [reflexivity|]. split; reflexivity.
Qed.

Lemma update_indices_evs (ix iy : num) (s : t) :
  evs (update_indices ix iy s) = evs (update (set_index_y iy (set_index_x ix s))).
Proof.
  unfold update_indices. rewrite !evs_bind. cbn [modify evs out st app].
  reflexivity.
Qed.

(** ** The rendered line *)

(** On arrays of one length the line generator pairs the values position
    by position. *)
Lemma line_from_combine (sx sy : XYAxes.Scale) (ys : list num) :
  forall (done xs : list num),
    length xs = length ys ->
    line_from sx sy (done ++ xs) (length done) ys =
    map (fun p => (XYAxes.apply sx (Some (fst p)), XYAxes.apply sy (Some (snd p))))
        (combine xs ys).
Proof.
  induction ys as [|y ys IH]; intros done xs Hlen.
  - destruct xs; [reflexivity | discriminate].
  - destruct xs as [|x xs]; [discriminate|].
    cbn [line_from combine map fst snd].
    rewrite nth_error_app2 by lia. rewrite Nat.sub_diag. cbn [nth_error].
    f_equal.
    replace (done ++ x :: xs) with ((done ++ [x]) ++ xs)
      by (rewrite <- app_assoc; reflexivity).
    replace (S (length done)) with (length (done ++ [x]))
      by (rewrite length_app; simpl; lia).
    apply IH. simpl in Hlen. lia.
Qed.

Lemma line_combine (sx sy : XYAxes.Scale) (xs ys : list num) :
  length xs = length ys ->
  line sx sy xs ys =
  map (fun p => (XYAxes.apply sx (Some (fst p)), XYAxes.apply sy (Some (snd p))))
      (combine xs ys).
Proof. intro H. exact (line_from_combine sx sy ys [] xs H). Qed.

Lemma get_In {A : Type} (arr : list A) (i : num) (a : A) :
  JS.get arr i = Some a -> In a arr.
Proof.
  unfold JS.get. destruct i as [|q|sg]; [discriminate | | discriminate].
  destruct (JS.is_integer q && Qle_bool 0 q); [|discriminate].
  apply nth_error_In.
Qed.

(** Clearing out old values keeps the dimensions aligned. *)
Lemma aligned_update (sim0 : SimControl) (d : DataStore.t) :
  DataStore.aligned d -> DataStore.aligned (DataStore.update sim0 d).
Proof.
  unfold DataStore.aligned, DataStore.update.
  cbn [DataStore.times DataStore.data]. intro H.
  apply Forall_map. eapply Forall_impl; [|exact H].
  intros row Hrow. cbn beta. rewrite !length_skipn. now rewrite Hrow.
Qed.

(** The arrays of a snapshot of aligned dimensions have one length. *)
Lemma shown_data_lengths (sim0 : SimControl) (d : DataStore.t) :
  DataStore.aligned d ->
  forall xs ys,
    In xs (DataStore.get_shown_data sim0 d) ->
    In ys (DataStore.get_shown_data sim0 d) ->
    length xs = length ys.
Proof.
  unfold DataStore.aligned, DataStore.get_shown_data. intros H xs ys Hx Hy.
  apply in_map_iff in Hx. destruct Hx as (rx & <- & Hrx).
  apply in_map_iff in Hy. destruct Hy as (ry & <- & Hry).
  rewrite Forall_forall in H.
  rewrite !length_firstn, !length_skipn.
  now rewrite (H rx Hrx), (H ry Hry).
Qed.

Lemma snapshot_lengths (s : t) (xs ys : list num) :
  DataStore.aligned (data_store s) ->
  JS.get (snapshot s) (index_x s) = Some xs ->
  JS.get (snapshot s) (index_y s) = Some ys ->
  length xs = length ys.
Proof.
  intros Hal Hx Hy. unfold snapshot in *.
  eapply shown_data_lengths; [apply aligned_update, Hal | |];
    eapply get_In; eassumption.
Qed.

Lemma nth_error_last {A : Type} (l : list A) (d : A) :
  l <> [] -> nth_error l (Z.to_nat (Z.of_nat (length l) - 1)) = Some (last l d).
Proof.
  intro Hne. destruct (exists_last Hne) as (l' & a & ->).
  rewrite last_last, length_app. cbn [length].
  replace (Z.to_nat (Z.of_nat (length l' + 1) - 1)) with (length l') by lia.
  rewrite nth_error_app2 by lia. now rewrite Nat.sub_diag.
Qed.

(** The events of [update]: nothing, or one rendering with the indices and
    scales of the state it starts from. *)
Lemma update_events (s : t) :
  evs (update s) = [] \/
  exists xs ys, evs (update s) = [Draw (drawing s xs ys)] /\
                JS.get (snapshot s) (index_x s) = Some xs /\
                JS.get (snapshot s) (index_y s) = Some ys /\
                xs <> [].
Proof.
  destruct (Nat.ltb_spec 1 (dims s)) as [Hd|Hd].
  - rewrite (update_valid_dims s Hd).
    destruct (JS.get (snapshot s) (index_x s)) as [[|x xs]|]; auto.
    destruct (JS.get (snapshot s) (index_y s)) as [ys|]; auto.
    right. exists (x :: xs), ys. repeat split; discriminate.
  - rewrite (update_invalid s Hd). auto.
Qed.

Lemma get_map {A B : Type} (f : A -> B) (arr : list A) (i : num) :
  JS.get (map f arr) i = option_map f (JS.get arr i).
Proof.
  unfold JS.get. destruct i as [|q|sg]; [reflexivity | | reflexivity].
  destruct (JS.is_integer q && Qle_bool 0 q); [|reflexivity].
  apply nth_error_map.
Qed.

(** After a reset every array of the snapshot is empty. *)
Lemma snapshot_reset (s : t) :
  snapshot (st (reset s)) = map (fun _ => []) (DataStore.data (data_store s)).
Proof.
  unfold snapshot, reset, schedule_update, bind, modify. cbn [out st].
  unfold DataStore.get_shown_data, DataStore.update, DataStore.reset.
  cbn [sim data_store set_data_store set_pending_update
       DataStore.times DataStore.data].
  rewrite !map_map. apply map_ext. intros row.
  destruct (DataStore.count_before _ []); cbn [skipn];
    rewrite skipn_nil; apply firstn_nil.
Qed.

(** Every rendering of [update] carries the indices and the scales of the
    state it starts from. *)
Lemma update_draws_current (s : t) (d : Drawing) :
  In (Draw d) (evs (update s)) ->
  (drawn_index_x d, drawn_index_y d) = indices s /\
  drawn_scale_x d = XYAxes.scale_x (axes2d s) /\
  drawn_scale_y d = XYAxes.scale_y (axes2d s).
Proof.
  destruct (update_events s) as [-> | (xs & ys & -> & _)]; [intros []|].
  intros [H|[]]. injection H as <-. repeat split.
Qed.
(** ** The redraw *)

Lemma invalid_dims_warn (s : t) : invalid_dims (warn s) = true.
Proof. destruct s as [? ? ? ? ? ? ? ? ? [|] ? ? ? ? ?]; reflexivity. Qed.

Lemma invalid_dims_unwarn (s : t) : invalid_dims (unwarn s) = false.
Proof. destruct s as [? ? ? ? ? ? ? ? ? [|] ? ? ? ? ?]; reflexivity. Qed.

(** The two ways in which [update] renders nothing. *)
Lemma update_warns_on_few_dimensions_cases (s : t) :
  ((dims s <= 1)%nat ->
     out (update s) = Ok tt /\
     invalid_dims (st (update s)) = true /\
     evs (update s) = [] /\
     path (st (update s)) = path s /\
     warning_label (st (update s)) =
       (if invalid_dims s then warning_label s
        else warning_label s ++ [mkRect (Fin 50) (Fin 50) None None])) /\
  ((1 < dims s)%nat ->
     JS.get (snapshot s) (index_x s) = Some [] ->
     out (update s) = Ok tt /\
     invalid_dims (st (update s)) = false /\
     evs (update s) = [] /\
     path (st (update s)) = path s).
Proof.
  split.
  - intro Hd. rewrite (update_invalid s Hd). cbn [out st evs].
    rewrite invalid_dims_warn.
    destruct s as [? ? ? ? ? ? ? ? ? [|] ? ? ? ? ?]; repeat split; reflexivity.
  - intros Hd Hx. rewrite (update_valid_dims s Hd), Hx. cbn [out st evs].
    rewrite invalid_dims_unwarn.
    destruct s as [? ? ? ? ? ? ? ? ? [|] ? ? ? ? ?]; repeat split; reflexivity.
Qed.

(** C1, as amended.  A redraw raises the warning for fewer than two
    dimensions, not for fewer than two points: when the data store has at
    most one dimension, [update] ends normally with [invalid_dims] true,
    renders no line (no rendering is emitted and [path] stays) and adds the
    rectangle of the warning label unless the flag was up already.  With two
    or more dimensions and an empty snapshot, as for N = 2 and an empty
    stream, [update] renders no line either, but leaves [invalid_dims]
    false. *)
Theorem update_warns_on_few_dimensions (s : t) :
  ((dims s <= 1)%nat ->
     out (update s) = Ok tt /\
     invalid_dims (st (update s)) = true /\
     evs (update s) = [] /\
     path (st (update s)) = path s /\
     warning_label (st (update s)) =
       (if invalid_dims s then warning_label s
        else warning_label s ++ [mkRect (Fin 50) (Fin 50) None None])) /\
  ((1 < dims s)%nat ->
     JS.get (snapshot s) (index_x s) = Some [] ->
     out (update s) = Ok tt /\
     invalid_dims (st (update s)) = false /\
     evs (update s) = [] /\
     path (st (update s)) = path s).
Proof. exact (update_warns_on_few_dimensions_cases s). Qed.

(** One dimension: the flag goes up and the label appears.  Two dimensions
    and an empty stream: the flag stays down. *)
Lemma update_warns_on_few_dimensions_witness :
  (invalid_dims (st (update Scenario.empty1)) = true /\
   evs (update Scenario.empty1) = []) /\
  (invalid_dims (st (update Scenario.empty2)) = false /\
   evs (update Scenario.empty2) = []).
Proof.
  split.
  - destruct (proj1 (update_warns_on_few_dimensions Scenario.empty1))
      as (_ & H1 & H2 & _).
    + vm_compute. lia.
    + split; assumption.
  - destruct (proj2 (update_warns_on_few_dimensions Scenario.empty2))
      as (_ & H1 & H2 & _).
    + vm_compute. lia.
    + reflexivity.
    + split; assumption.
Defined.

(** C1, as stated, fails: with N = 2 and an empty stream the snapshot has
    no point, yet the redraw leaves [invalid_dims] false. *)
Lemma update_few_points_counterexample :
  ~ warns_on_few_points Scenario.empty2.
Proof.
  unfold warns_on_few_points. intro H.
  assert (Hp : (snapshot_points Scenario.empty2 < 2)%nat)
    by (vm_compute; lia).
  destruct (H Hp) as (Hflag & _). vm_compute in Hflag. discriminate.
Qed.

(** C9.  After a call of [update] that ends normally, [invalid_dims] is
    [data_store.data.length <= 1]; this also holds after a call that stops
    with an error whenever the flag was not up for two or more dimensions
    before, which is so from the constructor on.  The number of samples has
    no part in it: with more than one dimension and an empty snapshot the
    flag is down after the call.  The data store of the constructor has
    [n_lines] dimensions, [args.n_lines || 1]. *)
Theorem update_invalid_dims_is_dimension_count :
  (forall s : t,
     completes (update s) = true \/
     (invalid_dims s = true -> (dims s <= 1)%nat) ->
     dims (st (update s)) = dims s /\
     invalid_dims (st (update s)) = (dims (st (update s)) <=? 1)%nat) /\
  (forall s : t,
     (1 < dims s)%nat ->
     JS.get (snapshot s) (index_x s) = Some [] ->
     completes (update s) = true /\ invalid_dims (st (update s)) = false) /\
  (forall (sim0 : SimControl) (args : Args),
     dims (init sim0 args) = n_lines (init sim0 args) /\
     n_lines (init sim0 args) = n_lines_or_1 (args_n_lines args) /\
     invalid_dims (init sim0 args) = false).
Proof.
  split; [|split].
  - intros s H.
    destruct (update_frame s) as (_ & _ & _ & _ & _ & Hdims & _).
    split; [exact Hdims|]. rewrite Hdims.
    destruct (Nat.ltb_spec 1 (dims s)) as [Hd|Hd].
    + assert (Hleb : (dims s <=? 1)%nat = false) by (apply Nat.leb_gt; exact Hd).
      rewrite Hleb. revert H. rewrite (update_valid_dims s Hd).
      destruct (JS.get (snapshot s) (index_x s)) as [[|x xs]|].
      * intros _. apply invalid_dims_unwarn.
      * destruct (JS.get (snapshot s) (index_y s)) as [ys|].
        -- intros _. apply invalid_dims_unwarn.
        -- unfold completes. cbn [out st]. intros [H|H]; [discriminate|].
           change (invalid_dims (evict s)) with (invalid_dims s).
           destruct (invalid_dims s); [|reflexivity].
           specialize (H eq_refl). lia.
      * unfold completes. cbn [out st]. intros [H|H]; [discriminate|].
        change (invalid_dims (evict s)) with (invalid_dims s).
        destruct (invalid_dims s); [|reflexivity].
        specialize (H eq_refl). lia.
    + assert (Hleb : (dims s <=? 1)%nat = true) by (apply Nat.leb_le; exact Hd).
      rewrite Hleb, (update_invalid s Hd). apply invalid_dims_warn.
  - intros s Hd Hx. rewrite (update_valid_dims s Hd), Hx.
    split; [reflexivity | apply invalid_dims_unwarn].
  - intros sim0 args. unfold dims, init. cbn. rewrite repeat_length. auto.
Qed.

Lemma update_invalid_dims_is_dimension_count_witness :
  invalid_dims (st (update Scenario.empty1)) = true /\
  invalid_dims (st (update Scenario.three_samples)) = false /\
  invalid_dims (st (update Scenario.empty2)) = false.
Proof.
  split; [|split].
  - apply (proj1 update_invalid_dims_is_dimension_count Scenario.empty1).
    left. reflexivity.
  - apply (proj1 update_invalid_dims_is_dimension_count Scenario.three_samples).
    left. reflexivity.
  - apply (proj1 (proj2 update_invalid_dims_is_dimension_count) Scenario.empty2).
    + vm_compute. lia.
    + reflexivity.
Defined.

(** C8.  [update] is idempotent: a second call right after a first one
    ends the same way, emits the same rendering (the same path data) and
    leaves the state, and with it the path and the circle, as the first
    call left it. *)
Theorem update_idempotent (s : t) :
  let first := update s in
  let second := update (st first) in
  out second = out first /\ evs second = evs first /\ st second = st first.
Proof.
  cbv zeta.
  destruct (Nat.ltb_spec 1 (dims s)) as [Hd|Hd].
  - rewrite (update_valid_dims s Hd).
    destruct (JS.get (snapshot s) (index_x s)) as [[|x xs]|] eqn:Ex.
    + cbn [st].
      assert (Hd' : (1 < dims (unwarn (evict s)))%nat).
      { replace (dims (unwarn (evict s))) with (dims s); [exact Hd|].
        destruct s as [? ? ? ? ? ? ? ? ? [|] ? ? ? ? ?]; symmetry; apply dims_evict. }
      rewrite (update_valid_dims _ Hd').
      rewrite snapshot_unwarn, snapshot_evict.
      replace (index_x (unwarn (evict s))) with (index_x s)
        by (destruct s as [? ? ? ? ? ? ? ? ? [|] ? ? ? ? ?]; reflexivity).
      rewrite Ex. cbn [out st evs].
      rewrite evict_unwarn, evict_idem, unwarn_idem. auto.
    + destruct (JS.get (snapshot s) (index_y s)) as [ys|] eqn:Ey.
      * cbn [st].
        assert (Hd' : (1 < dims (unwarn (drawn (evict s) (x :: xs) ys)))%nat).
        { replace (dims (unwarn (drawn (evict s) (x :: xs) ys))) with (dims s);
            [exact Hd|].
          destruct s as [? ? ? ? ? ? ? ? ? [|] ? ? ? ? ?]; symmetry; apply dims_evict. }
        rewrite (update_valid_dims _ Hd').
        rewrite snapshot_unwarn, snapshot_drawn, snapshot_evict.
        replace (index_x (unwarn (drawn (evict s) (x :: xs) ys))) with (index_x s)
          by (destruct s as [? ? ? ? ? ? ? ? ? [|] ? ? ? ? ?]; reflexivity).
        replace (index_y (unwarn (drawn (evict s) (x :: xs) ys))) with (index_y s)
          by (destruct s as [? ? ? ? ? ? ? ? ? [|] ? ? ? ? ?]; reflexivity).
        rewrite Ex, Ey. cbn [out st evs].
        rewrite evict_unwarn, evict_drawn, evict_idem, unwarn_drawn_idem.
        repeat split.
        destruct s as [? ? ? ? ? ? ? ? ? [|] ? ? ? ? ?]; reflexivity.
      * cbn [st].
        assert (Hd' : (1 < dims (evict s))%nat) by (now rewrite dims_evict).
        rewrite (update_valid_dims _ Hd'), snapshot_evict.
        change (index_x (evict s)) with (index_x s).
        change (index_y (evict s)) with (index_y s).
        rewrite Ex, Ey, evict_idem. auto.
    + cbn [st].
      assert (Hd' : (1 < dims (evict s))%nat) by (now rewrite dims_evict).
      rewrite (update_valid_dims _ Hd'), snapshot_evict.
      change (index_x (evict s)) with (index_x s).
      rewrite Ex, evict_idem. auto.
  - rewrite (update_invalid s Hd). cbn [st out evs].
    assert (Hd' : (dims (warn (evict s)) <= 1)%nat).
    { replace (dims (warn (evict s))) with (dims s); [exact Hd|].
      destruct s as [? ? ? ? ? ? ? ? ? [|] ? ? ? ? ?]; symmetry; apply dims_evict. }
    rewrite (update_invalid _ Hd'). cbn [st out evs].
    rewrite evict_warn, evict_idem, warn_idem. auto.
Qed.

(** ** The reset *)

(** C5.  [reset] leaves [index_x], [index_y] and the range (the bounds and
    the domains of both axes, and so the layout that would be saved) as
    they were; it ends normally, renders nothing, empties every dimension of
    the stream and asks for a redraw. *)
Theorem reset_keeps_configuration (s : t) :
  let s' := st (reset s) in
  index_x s' = index_x s /\
  index_y s' = index_y s /\
  XYAxes.min_val (axes2d s') = XYAxes.min_val (axes2d s) /\
  XYAxes.max_val (axes2d s') = XYAxes.max_val (axes2d s) /\
  domains s' = domains s /\
  layout_info s' = layout_info s /\
  s' = set_pending_update true
         (set_data_store (DataStore.reset (data_store s)) s) /\
  DataStore.times (data_store s') = [] /\
  Forall (fun row => row = []) (DataStore.data (data_store s')) /\
  dims s' = dims s /\
  out (reset s) = Ok tt /\
  evs (reset s) = [].
Proof.
  cbv zeta. unfold reset, schedule_update, bind, modify. cbn [out st evs].
  repeat split.
  - cbn. apply Forall_map. apply Forall_forall. intros; reflexivity.
  - unfold dims. cbn. apply length_map.
Qed.

(** C6, as amended.  The redraw after a reset sets [invalid_dims] by the
    dimension count alone, whatever the flag was before: it is true exactly
    when the data store has at most one dimension.  The redraw ends normally
    when [index_x] selects a dimension (or there is at most one), renders
    nothing and leaves the path as it was. *)
Theorem redraw_after_reset (s : t) :
  (dims s <= 1)%nat \/
  JS.get (DataStore.data (data_store s)) (index_x s) <> None ->
  out (reset_then_redraw s) = Ok tt /\
  invalid_dims (st (reset_then_redraw s)) = (dims s <=? 1)%nat /\
  evs (reset_then_redraw s) = [] /\
  path (st (reset_then_redraw s)) = path s /\
  indices (st (reset_then_redraw s)) = indices s /\
  domains (st (reset_then_redraw s)) = domains s.
Proof.
  intro H.
  pose proof (snapshot_reset s) as Hsnap.
  assert (Hix : index_x (st (reset s)) = index_x s) by reflexivity.
  assert (Hst : st (reset s) =
                set_pending_update true
                  (set_data_store (DataStore.reset (data_store s)) s))
    by reflexivity.
  assert (Hdims : dims (st (reset s)) = dims s).
  { rewrite Hst. unfold dims. cbn. apply length_map. }
  set (s1 := st (reset s)) in *.
  set (s2 := set_pending_update false s1).
  assert (Hrun : reset_then_redraw s =
                 mkRes (out (update s2)) (st (update s2)) (evs (update s2))).
  { unfold reset_then_redraw, frame, bind at 1 2.
    unfold reset at 1 2 3, schedule_update, bind at 1 2 3, modify, this.
    cbn [out st evs pending_update set_pending_update app].
    unfold bind. cbn [out st evs app].
    subst s2 s1. unfold reset, schedule_update, bind, modify. cbn [out st evs].
    destruct (out (update _)); reflexivity. }
  rewrite Hrun. cbn [out st evs].
  assert (Hdims2 : dims s2 = dims s) by (rewrite <- Hdims; reflexivity).
  assert (Hsnap2 : snapshot s2 = map (fun _ => []) (DataStore.data (data_store s)))
    by (rewrite <- Hsnap; reflexivity).
  assert (Hpath2 : path s2 = path s) by (subst s2 s1; rewrite Hst; reflexivity).
  assert (Hind2 : indices s2 = indices s) by (subst s2 s1; rewrite Hst; reflexivity).
  assert (Hdom2 : domains s2 = domains s) by (subst s2 s1; rewrite Hst; reflexivity).
  assert (Hkeep : indices (st (update s2)) = indices s /\
                  domains (st (update s2)) = domains s).
  { split.
    - apply preserves_update_indices. exact Hind2.
    - apply preserves_update_domains. exact Hdom2. }
  destruct (Nat.ltb_spec 1 (dims s)) as [Hd|Hd].
  - assert (Hleb : (dims s <=? 1)%nat = false) by (apply Nat.leb_gt; exact Hd).
    rewrite Hleb.
    destruct H as [H|H]; [lia|].
    assert (Hx : JS.get (snapshot s2) (index_x s2) = Some []).
    { rewrite Hsnap2, get_map.
      change (index_x s2) with (index_x s1). fold s1 in Hix. rewrite Hix.
      destruct (JS.get (DataStore.data (data_store s)) (index_x s));
        [reflexivity | congruence]. }
    rewrite <- Hdims2 in Hd.
    destruct (proj2 (update_warns_on_few_dimensions_cases s2) Hd Hx)
      as (Ho & Hf & He & Hp).
    rewrite Ho, Hf, He, Hp, Hpath2. tauto.
  - assert (Hleb : (dims s <=? 1)%nat = true) by (apply Nat.leb_le; exact Hd).
    rewrite Hleb. rewrite <- Hdims2 in Hd.
    destruct (proj1 (update_warns_on_few_dimensions_cases s2) Hd)
      as (Ho & Hf & He & Hp & _).
    rewrite Ho, Hf, He, Hp, Hpath2. tauto.
Qed.

(** N = 3 with three samples in the stream: after the reset the redraw
    leaves the flag down.  One dimension: it leaves the flag up. *)
Lemma redraw_after_reset_witness :
  invalid_dims (st (reset_then_redraw Scenario.three_samples)) = false /\
  invalid_dims (st (reset_then_redraw Scenario.empty1)) = true.
Proof.
  split.
  - apply (redraw_after_reset Scenario.three_samples).
    right. vm_compute. discriminate.
  - apply (redraw_after_reset Scenario.empty1).
    left. vm_compute. lia.
Defined.

(** C6, as stated, fails: for N = 3 the redraw after a reset leaves
    [invalid_dims] false. *)
Lemma invalid_after_reset_counterexample :
  ~ invalid_after_reset Scenario.three_samples.
Proof.
  unfold invalid_after_reset. intro H. vm_compute in H. discriminate.
Qed.

(** ** The rendered path and the marker *)

(** C7, as amended.  With two or more dimensions, aligned, and a snapshot
    that is not empty, [update] ends normally and renders the path as the
    pointwise zip of [snapshot[index_x]] with [snapshot[index_y]], in order,
    each pair projected by the scales of the two axes; the rendering is
    emitted once and written to [path]; the circle is placed at the
    projection of the last element of each of the two arrays.  (With a single
    dimension nothing is rendered, however many points there are.) *)
Theorem update_draws_zip (s : t) (xs ys : list num) :
  (1 < dims s)%nat ->
  DataStore.aligned (data_store s) ->
  JS.get (snapshot s) (index_x s) = Some xs ->
  JS.get (snapshot s) (index_y s) = Some ys ->
  xs <> [] ->
  let points := map (project s) (combine xs ys) in
  out (update s) = Ok tt /\
  path (st (update s)) = Some points /\
  evs (update s) =
    [Draw (mkDrawing (index_x s) (index_y s)
             (XYAxes.scale_x (axes2d s)) (XYAxes.scale_y (axes2d s)) points)] /\
  (cx (recent_circle (st (update s))), cy (recent_circle (st (update s)))) =
    project s (last xs NaN, last ys NaN) /\
  length xs = length ys.
Proof.
  intros Hd Hal Hx Hy Hne. cbv zeta.
  pose proof (snapshot_lengths s Hal Hx Hy) as Hlen.
  assert (Hney : ys <> []).
  { destruct ys; [|discriminate]. destruct xs; [congruence | discriminate]. }
  rewrite (update_valid_dims s Hd), Hx, Hy.
  destruct xs as [|x xs']; [congruence|].
  cbn [out st evs].
  assert (Hline : line (XYAxes.scale_x (axes2d s)) (XYAxes.scale_y (axes2d s))
                    (x :: xs') ys = map (project s) (combine (x :: xs') ys)).
  { rewrite (line_combine _ _ _ _ Hlen). reflexivity. }
  repeat split.
  - destruct s as [? ? ? ? ? ? ? ? ? [|] ? ? ? ? ?]; cbn; cbn in Hline;
      now rewrite Hline.
  - unfold drawing. now rewrite Hline.
  - assert (Hc : recent_circle (unwarn (drawn (evict s) (x :: xs') ys)) =
                 mkCircle (r (recent_circle s))
                   (XYAxes.apply (XYAxes.scale_x (axes2d s))
                      (nth_error (x :: xs') (Z.to_nat (Z.of_nat (length (x :: xs')) - 1))))
                   (XYAxes.apply (XYAxes.scale_y (axes2d s))
                      (nth_error ys (Z.to_nat (Z.of_nat (length (x :: xs')) - 1))))).
    { destruct s as [? ? ? ? ? ? ? ? ? [|] ? ? ? ? ?]; reflexivity. }
    rewrite Hc. cbn [cx cy]. unfold project. cbn [fst snd].
    rewrite (nth_error_last NaN Hne).
    rewrite Hlen, (nth_error_last NaN Hney). reflexivity.
  - exact Hlen.
Qed.

(** The scenario N = 3, samples [0,0,0], [1,2,3], [4,5,6], [index_x = 0],
    [index_y = 1]: the path goes through (0,0), (1,2), (4,5) and the circle
    is at (4,5). *)
Lemma update_draws_zip_witness :
  combine [Fin 0; Fin 1; Fin 4] [Fin 0; Fin 2; Fin 5] =
    [(Fin 0, Fin 0); (Fin 1, Fin 2); (Fin 4, Fin 5)] /\
  path (st (update Scenario.three_samples)) =
    Some (map (project Scenario.three_samples)
            [(Fin 0, Fin 0); (Fin 1, Fin 2); (Fin 4, Fin 5)]) /\
  (cx (recent_circle (st (update Scenario.three_samples))),
   cy (recent_circle (st (update Scenario.three_samples)))) =
    project Scenario.three_samples (Fin 4, Fin 5).
Proof.
  destruct (@update_draws_zip Scenario.three_samples
              [Fin 0; Fin 1; Fin 4] [Fin 0; Fin 2; Fin 5])
    as (_ & Hpath & _ & Hcircle & _).
  - vm_compute. lia.
  - repeat constructor.
  - vm_compute. reflexivity.
  - vm_compute. reflexivity.
  - discriminate.
  - split; [reflexivity|]. split; [exact Hpath | exact Hcircle].
Defined.

(** C7, as stated, fails: with a single dimension, three points in the
    snapshot and both indices 0, the redraw renders no path. *)
Lemma renders_zip_of_points_counterexample :
  ~ renders_zip_of_points Scenario.one_dimension.
Proof.
  unfold renders_zip_of_points. intro H.
  assert (Hp : (2 <= snapshot_points Scenario.one_dimension)%nat)
    by (vm_compute; lia).
  specialize (H Hp [Fin 0; Fin 1; Fin 4] [Fin 0; Fin 1; Fin 4]).
  assert (Hx : JS.get (snapshot Scenario.one_dimension)
                 (index_x Scenario.one_dimension) = Some [Fin 0; Fin 1; Fin 4])
    by (vm_compute; reflexivity).
  assert (Hy : JS.get (snapshot Scenario.one_dimension)
                 (index_y Scenario.one_dimension) = Some [Fin 0; Fin 1; Fin 4])
    by (vm_compute; reflexivity).
  specialize (H Hx Hy).
  assert (Hnone : path (st (update Scenario.one_dimension)) = None)
    by (vm_compute; reflexivity).
  rewrite Hnone in H. discriminate H.
Qed.

(** ** The dialogs *)

Lemma set_range_rejected (val : string) (s : t) :
  set_range_accepts val = false -> set_range val s = mkRes (Ok false) s [].
Proof.
  unfold set_range_accepts, set_range. intro H.
  apply negb_false_iff in H. now rewrite H.
Qed.

Lemma set_indices_rejected (val : string) (s : t) :
  set_indices_accepts (n_lines s) val = false ->
  set_indices val s = mkRes (Ok false) s [].
Proof.
  unfold set_indices_accepts, set_indices, bind, this. cbn [out st evs].
  intro H. apply negb_false_iff in H. now rewrite H.
Qed.

(** C2.  The text [0,0x10] at the dialog of the range.  The validator
    reads the fields with [Number], as 0 and 16, finds them ordered and
    crossing zero, and takes the text; the handler reads them again with
    [parseFloat], as 0 and 0, and applies those: the call ends normally, the
    domains of both axes become [[0, 0]] and that is the range that is
    saved.  So the range applied is not the pair that was validated, and it
    is not ordered. *)
Theorem set_range_applies_what_parseFloat_reads :
  set_range_accepts "0,0x10" = true /\
  JS.Number (Some "0"%string) = Fin 0 /\
  JS.Number (Some "0x10"%string) = Fin 16 /\
  JS.parseFloat (Some "0x10"%string) = Fin 0 /\
  out (set_range "0,0x10" Scenario.three_samples) = Ok true /\
  domains (st (set_range "0,0x10" Scenario.three_samples)) =
    ((Fin 0, Fin 0), (Fin 0, Fin 0)) /\
  last (evs (set_range "0,0x10" Scenario.three_samples))
       (SaveLayout (mkLayout NaN NaN NaN NaN)) =
    SaveLayout (mkLayout (Fin 0) (Fin 0) (Fin 0) (Fin 1)).
Proof. vm_compute. repeat split. Qed.

(** C3.  The text [,] at the dialog of the indices, on a plot of three
    dimensions showing dimension 0 against dimension 1.  Neither field holds
    an integer, yet the validator reads each with [Number], as 0, and takes
    the text; the handler reads the fields with [parseInt], as [NaN], and
    stores those: both indices become [NaN], the redraw stops with a
    [TypeError] and nothing is saved. *)
Theorem set_indices_stores_nan_for_empty_fields :
  indices Scenario.three_samples = (Fin 0, Fin 1) /\
  set_indices_accepts (n_lines Scenario.three_samples) "," = true /\
  JS.Number (Some ""%string) = Fin 0 /\
  JS.parseInt (Some ""%string) = NaN /\
  indices (st (set_indices "," Scenario.three_samples)) = (NaN, NaN) /\
  out (set_indices "," Scenario.three_samples) = TypeError /\
  evs (set_indices "," Scenario.three_samples) = [].
Proof. vm_compute. repeat split. Qed.

(** ** Restoring a layout *)

(** C4, as amended.  [update_layout] applies the indices first and renders
    them at once, under the range that is still in place: its events start
    with those of [update_indices], whose renderings carry the new indices
    and the scales from before the call, and after which the new indices are
    stored and the domains are the old ones.  When that redraw ends normally
    the range is applied next and rendered again: the events go on with those
    of [update_range], whose renderings carry the new indices and the new
    domains. *)
Theorem update_layout_renders_indices_first
    (base : Layout -> M unit) (config : Layout) (s : t) :
  let first := update_indices (cfg_index_x config) (cfg_index_y config) s in
  let second := update_range (min_value config) (max_value config) (st first) in
  let new_range := (min_value config, max_value config) in
  (exists rest, evs (update_layout base config s) = evs first ++ rest) /\
  (forall d : Drawing,
     In (Draw d) (evs first) ->
     (drawn_index_x d, drawn_index_y d) = (cfg_index_x config, cfg_index_y config) /\
     drawn_scale_x d = XYAxes.scale_x (axes2d s) /\
     drawn_scale_y d = XYAxes.scale_y (axes2d s)) /\
  indices (st first) = (cfg_index_x config, cfg_index_y config) /\
  domains (st first) = domains s /\
  (completes first = true ->
   (exists rest,
      evs (update_layout base config s) = evs first ++ evs second ++ rest) /\
   (forall d : Drawing,
      In (Draw d) (evs second) ->
      (drawn_index_x d, drawn_index_y d) = (cfg_index_x config, cfg_index_y config) /\
      XYAxes.domain (drawn_scale_x d) = new_range /\
      XYAxes.domain (drawn_scale_y d) = new_range) /\
   domains (st second) = (new_range, new_range)).
Proof.
  cbv zeta.
  pose proof (update_indices_indices (cfg_index_x config) (cfg_index_y config) s)
    as Hind.
  split; [|split; [|split; [|split]]].
  - unfold update_layout. rewrite evs_bind. eexists. reflexivity.
  - intros d Hd. rewrite update_indices_evs in Hd.
    apply update_draws_current in Hd. exact Hd.
  - exact Hind.
  - apply preserves_update_indices_domains. reflexivity.
  - intro Hok. unfold completes in Hok. split; [|split].
    + unfold update_layout. rewrite evs_bind.
      destruct (out (update_indices _ _ s)); [|discriminate].
      rewrite evs_bind. eexists. reflexivity.
    + intros d Hd.
      destruct (update_range_evs (min_value config) (max_value config)
                  (st (update_indices (cfg_index_x config) (cfg_index_y config) s)))
        as (s1 & Hevs & Hind1 & Hdom1).
      rewrite Hevs in Hd. apply update_draws_current in Hd.
      destruct Hd as (Hi & Hx & Hy).
      rewrite Hi, Hind1, Hind, Hx, Hy.
      unfold domains in Hdom1. injection Hdom1 as Hdx Hdy.
      rewrite Hdx, Hdy. auto.
    + apply update_range_domains.
Qed.

(** Restoring the range [-1, 1] with the indices 1 and 2 over three
    samples: the events start with those of the redraw of the indices, after
    which the indices are the new ones and the domains still [-10, 10]. *)
Lemma update_layout_renders_indices_first_witness :
  (exists rest,
     evs (update_layout Scenario.no_base Scenario.saved_layout
            Scenario.three_samples) =
     evs (update_indices (Fin 1) (Fin 2) Scenario.three_samples) ++ rest) /\
  indices (st (update_indices (Fin 1) (Fin 2) Scenario.three_samples)) =
    (Fin 1, Fin 2) /\
  domains (st (update_indices (Fin 1) (Fin 2) Scenario.three_samples)) =
    ((Fin (-10), Fin 10), (Fin (-10), Fin 10)).
Proof.
  destruct (update_layout_renders_indices_first Scenario.no_base
              Scenario.saved_layout Scenario.three_samples)
    as (Hevs & _ & Hind & Hdom & _).
  split; [exact Hevs|]. split; [exact Hind | exact Hdom].
Defined.

(** C4, as stated, fails: restoring the range [-1, 1] with the indices 1
    and 2 emits a rendering of the new indices under the old range
    [-10, 10]. *)
Lemma range_before_indices_counterexample :
  ~ range_before_indices Scenario.no_base Scenario.saved_layout
      Scenario.three_samples.
Proof.
  unfold range_before_indices. intro H.
  set (d := mkDrawing (Fin 1) (Fin 2)
              (XYAxes.mkScale (Fin (-10), Fin 10) (Fin 0, Fin 20))
              (XYAxes.mkScale (Fin (-10), Fin 10) (Fin 20, Fin 0))
              [(Fin 10, Fin 10); (Fin 12, Fin 7); (Fin 15, Fin 4)]).
  assert (Hin : In (Draw d)
                  (evs (update_layout Scenario.no_base Scenario.saved_layout
                          Scenario.three_samples))).
  { vm_compute. left. reflexivity. }
  destruct (H d Hin eq_refl) as (Hx & _). discriminate Hx.
Qed.

(** C10.  [update_indices] and [update_range] validate nothing: whatever
    the arguments and however the redraw ends, the stored indices are the
    ones given and the domains of both axes are the pair given.
    [update_layout] passes a saved configuration to them as it is: the
    indices of the configuration are stored, and when the redraw of the
    indices ends normally both domains are the range of the configuration
    (the base class being one that leaves indices and domains alone). *)
Theorem update_methods_do_not_validate :
  (forall (s : t) (ix iy : num),
     indices (st (update_indices ix iy s)) = (ix, iy)) /\
  (forall (s : t) (min max : num),
     domains (st (update_range min max s)) = ((min, max), (min, max))) /\
  (forall (base : Layout -> M unit) (config : Layout) (s : t),
     (forall i, preserves (fun s' => indices s' = i) (base config)) ->
     (forall d, preserves (fun s' => domains s' = d) (base config)) ->
     indices (st (update_layout base config s)) =
       (cfg_index_x config, cfg_index_y config) /\
     (completes (update_indices (cfg_index_x config) (cfg_index_y config) s) = true ->
      domains (st (update_layout base config s)) =
        ((min_value config, max_value config),
         (min_value config, max_value config)))).
Proof.
  split; [|split].
  - intros s ix iy. apply update_indices_indices.
  - intros s min max. apply update_range_domains.
  - intros base config s Hbi Hbd. split.
    + unfold update_layout.
      apply bind_establishes
        with (P := fun s' => indices s' = (cfg_index_x config, cfg_index_y config)).
      * apply update_indices_indices.
      * intros _.
        apply preserves_bind; [apply preserves_update_range_indices | intros _].
        apply Hbi.
    + intro Hok. unfold update_layout.
      destruct (st_bind_completes
                  (update_indices (cfg_index_x config) (cfg_index_y config))
                  (fun _ => bind (update_range (min_value config) (max_value config))
                              (fun _ => base config)) s Hok) as (u & Hu).
      rewrite Hu.
      apply bind_establishes
        with (P := fun s' => domains s' = ((min_value config, max_value config),
                                           (min_value config, max_value config))).
      * apply update_range_domains.
      * intros _. apply Hbd.
Qed.

(** A layout with the range [7, 3] and the indices 9 and 5/2 is restored
    as it is on a plot of one dimension. *)
Lemma update_methods_do_not_validate_witness :
  indices (st (update_layout Scenario.no_base Scenario.unchecked_layout
                 Scenario.empty1)) = (Fin 9, Fin (5 # 2)) /\
  domains (st (update_layout Scenario.no_base Scenario.unchecked_layout
                 Scenario.empty1)) = ((Fin 7, Fin 3), (Fin 7, Fin 3)).
Proof.
  destruct (proj2 (proj2 update_methods_do_not_validate)
              Scenario.no_base Scenario.unchecked_layout Scenario.empty1)
    as (Hi & Hd).
  - intros i s Hs. exact Hs.
  - intros d s Hs. exact Hs.
  - split; [exact Hi | apply Hd; reflexivity].
Defined.

(** With two or more dimensions an index that selects none of them stops
    the redraw of [update_layout] with an error: the indices are stored, the
    range is not reached. *)
Example update_layout_stops_on_bad_index :
  let r := update_layout Scenario.no_base Scenario.unchecked_layout
             Scenario.three_samples in
  out r = TypeError /\
  indices (st r) = (Fin 9, Fin (5 # 2)) /\
  domains (st r) = ((Fin (-10), Fin 10), (Fin (-10), Fin 10)).
Proof. vm_compute. repeat split. Qed.

(** ** Further properties of the redraw *)

Lemma update_stops (s : t) :
  completes (update s) = false <->
  (1 < dims s)%nat /\
  (JS.get (snapshot s) (index_x s) = None \/
   exists x xs,
     JS.get (snapshot s) (index_x s) = Some (x :: xs) /\
     JS.get (snapshot s) (index_y s) = None).
Proof.
  destruct (Nat.ltb_spec 1 (dims s)) as [Hd|Hd].
  - rewrite (update_valid_dims s Hd).
    destruct (JS.get (snapshot s) (index_x s)) as [[|x xs]|].
    + split; [discriminate|]. intros (_ & [H|(x & xs & H & _)]); discriminate.
    + destruct (JS.get (snapshot s) (index_y s)) as [ys|].
      * split; [discriminate|].
        intros (_ & [H|(x' & xs' & _ & H)]); discriminate.
      * split; [|reflexivity]. intros _. split; [exact Hd|].
        right. exists x, xs. auto.
    + split; [|reflexivity]. intros _. split; [exact Hd|]. now left.
  - rewrite (update_invalid s Hd).
    split; [discriminate|]. intros (H & _). lia.
Qed.

Lemma update_stopped_state (s : t) :
  completes (update s) = false -> update s = mkRes TypeError (evict s) [].
Proof.
  destruct (Nat.ltb_spec 1 (dims s)) as [Hd|Hd].
  - rewrite (update_valid_dims s Hd).
    destruct (JS.get (snapshot s) (index_x s)) as [[|x xs]|];
      [discriminate | | reflexivity].
    destruct (JS.get (snapshot s) (index_y s)); [discriminate | reflexivity].
  - rewrite (update_invalid s Hd). discriminate.
Qed.

(** X1.  [update] stops with a [TypeError] exactly when there are two or
    more dimensions and either [index_x] selects no array of the snapshot,
    or the snapshot is not empty and [index_y] selects none.  It then has
    rendered nothing: apart from the store, which has cleared out its old
    values, the state is as before (path, circle and flag included). *)
Theorem update_stops_on_bad_index (s : t) :
  (completes (update s) = false <->
   (1 < dims s)%nat /\
   (JS.get (snapshot s) (index_x s) = None \/
    exists x xs,
      JS.get (snapshot s) (index_x s) = Some (x :: xs) /\
      JS.get (snapshot s) (index_y s) = None)) /\
  (completes (update s) = false ->
   update s = mkRes TypeError (evict s) [] /\
   path (st (update s)) = path s /\
   recent_circle (st (update s)) = recent_circle s /\
   invalid_dims (st (update s)) = invalid_dims s /\
   warning_label (st (update s)) = warning_label s).
Proof.
  split; [apply update_stops|].
  intro H. rewrite (update_stopped_state s H). cbn [st]. repeat split.
Qed.

(** Three samples and [index_x] out of bounds: the redraw stops.  The same
    with [index_y] out of bounds. *)
Lemma update_stops_on_bad_index_witness :
  update (set_index_x (Fin 3) Scenario.three_samples) =
    mkRes TypeError (evict (set_index_x (Fin 3) Scenario.three_samples)) [] /\
  path (st (update (set_index_y (Fin (1 # 2)) Scenario.three_samples))) =
    path Scenario.three_samples.
Proof.
  split.
  - apply (proj2 (update_stops_on_bad_index
                    (set_index_x (Fin 3) Scenario.three_samples))).
    vm_compute. reflexivity.
  - apply (proj2 (update_stops_on_bad_index
                    (set_index_y (Fin (1 # 2)) Scenario.three_samples))).
    vm_compute. reflexivity.
Defined.

(** X2.  Whatever way it ends, [update] leaves the configuration alone:
    the axes (range, domains and pixel ranges), both indices, [n_lines],
    the simulation control, the number of dimensions of the store, the
    recorded sizes, the radius of the circle and the pending flag are as
    before; and it emits at most one rendering. *)
Theorem update_keeps_configuration (s : t) :
  let s' := st (update s) in
  axes2d s' = axes2d s /\
  index_x s' = index_x s /\ index_y s' = index_y s /\
  n_lines s' = n_lines s /\ sim s' = sim s /\ dims s' = dims s /\
  width s' = width s /\ height s' = height s /\
  screen_width s' = screen_width s /\ screen_height s' = screen_height s /\
  r (recent_circle s') = r (recent_circle s) /\
  pending_update s' = pending_update s /\
  (length (evs (update s)) <= 1)%nat.
Proof.
  cbv zeta.
  destruct (update_frame s) as (Ha & Hx & Hy & Hn & Hs & Hd & Hw & Hh & Hp).
  repeat split; try assumption.
  - destruct (Nat.ltb_spec 1 (dims s)) as [H|H].
    + rewrite (update_valid_dims s H).
      destruct (JS.get (snapshot s) (index_x s)) as [[|x xs]|];
        [| destruct (JS.get (snapshot s) (index_y s)) as [ys|] |];
        cbn [st]; destruct s as [? ? ? ? ? ? ? ? ? [|] ? ? ? ? ?]; reflexivity.
    + rewrite (update_invalid s H). cbn [st].
      destruct s as [? ? ? ? ? ? ? ? ? [|] ? ? ? ? ?]; reflexivity.
  - destruct (Nat.ltb_spec 1 (dims s)) as [H|H].
    + rewrite (update_valid_dims s H).
      destruct (JS.get (snapshot s) (index_x s)) as [[|x xs]|];
        [| destruct (JS.get (snapshot s) (index_y s)) as [ys|] |];
        cbn [st]; destruct s as [? ? ? ? ? ? ? ? ? [|] ? ? ? ? ?]; reflexivity.
    + rewrite (update_invalid s H). cbn [st].
      destruct s as [? ? ? ? ? ? ? ? ? [|] ? ? ? ? ?]; reflexivity.
  - destruct (Nat.ltb_spec 1 (dims s)) as [H|H].
    + rewrite (update_valid_dims s H).
      destruct (JS.get (snapshot s) (index_x s)) as [[|x xs]|];
        [| destruct (JS.get (snapshot s) (index_y s)) as [ys|] |];
        cbn [st]; destruct s as [? ? ? ? ? ? ? ? ? [|] ? ? ? ? ?]; reflexivity.
    + rewrite (update_invalid s H). cbn [st].
      destruct s as [? ? ? ? ? ? ? ? ? [|] ? ? ? ? ?]; reflexivity.
  - destruct (update_events s) as [-> | (xs & ys & -> & _)]; simpl; lia.
Qed.

Lemma combine_diagonal {A : Type} (l : list A) :
  combine l l = map (fun v => (v, v)) l.
Proof. induction l as [|a l IH]; [reflexivity|]. simpl. now rewrite IH. Qed.

(** X3.  Equal indices are plotted, not refused: with two or more
    dimensions, [index_x = index_y] and a snapshot that is not empty,
    [update] ends normally and renders the selected array against itself,
    the path lying on the diagonal [y = x] of the plane; the circle sits on
    its last point. *)
Theorem update_equal_indices_diagonal (s : t) (xs : list num) :
  (1 < dims s)%nat ->
  index_x s = index_y s ->
  JS.get (snapshot s) (index_x s) = Some xs ->
  xs <> [] ->
  out (update s) = Ok tt /\
  path (st (update s)) = Some (map (fun v => project s (v, v)) xs) /\
  (cx (recent_circle (st (update s))), cy (recent_circle (st (update s)))) =
    project s (last xs NaN, last xs NaN).
Proof.
  intros Hd Heq Hx Hne.
  assert (Hy : JS.get (snapshot s) (index_y s) = Some xs) by (now rewrite <- Heq).
  rewrite (update_valid_dims s Hd), Hx, Hy.
  destruct xs as [|x xs']; [congruence|]. cbn [out st].
  assert (Hline : line (XYAxes.scale_x (axes2d s)) (XYAxes.scale_y (axes2d s))
                    (x :: xs') (x :: xs') =
                  map (fun v => project s (v, v)) (x :: xs')).
  { rewrite (line_combine _ _ _ _ eq_refl), combine_diagonal, map_map.
    reflexivity. }
  split; [reflexivity|]. split.
  - destruct s as [? ? ? ? ? ? ? ? ? [|] ? ? ? ? ?]; cbn; cbn in Hline;
      now rewrite Hline.
  - assert (Hc : recent_circle (unwarn (drawn (evict s) (x :: xs') (x :: xs'))) =
                 mkCircle (r (recent_circle s))
                   (XYAxes.apply (XYAxes.scale_x (axes2d s))
                      (nth_error (x :: xs') (Z.to_nat (Z.of_nat (length (x :: xs')) - 1))))
                   (XYAxes.apply (XYAxes.scale_y (axes2d s))
                      (nth_error (x :: xs') (Z.to_nat (Z.of_nat (length (x :: xs')) - 1))))).
    { destruct s as [? ? ? ? ? ? ? ? ? [|] ? ? ? ? ?]; reflexivity. }
    rewrite Hc. cbn [cx cy]. unfold project. cbn [fst snd].
    rewrite (nth_error_last NaN Hne). reflexivity.
Qed.

(** Three samples with both indices 1: the path goes through (0,0), (2,2),
    (5,5). *)
Lemma update_equal_indices_diagonal_witness :
  path (st (update (set_index_x (Fin 1) Scenario.three_samples))) =
    Some (map (fun v => project (set_index_x (Fin 1) Scenario.three_samples) (v, v))
            [Fin 0; Fin 2; Fin 5]).
Proof.
  apply (@update_equal_indices_diagonal
           (set_index_x (Fin 1) Scenario.three_samples) [Fin 0; Fin 2; Fin 5]).
  - vm_compute. lia.
  - reflexivity.
  - vm_compute. reflexivity.
  - discriminate.
Defined.

(** ** The warning over the life of a component *)

Lemma settled_view (s s' : t) :
  warning_view s' = warning_view s -> settled s -> settled s'.
Proof.
  unfold warning_view, settled. intro H. injection H as -> -> -> ->. auto.
Qed.

Lemma preserves_settled_modify (f : t -> t) :
  (forall s, warning_view (f s) = warning_view s) ->
  preserves settled (modify f).
Proof. intros Hf s Hs. exact (@settled_view s (f s) (Hf s) Hs). Qed.

Lemma preserves_this (P : t -> Prop) : preserves P this.
Proof. intros s Hs. exact Hs. Qed.

Lemma warn_settled (s : t) : invalid_dims s = true -> warn s = s.
Proof. unfold warn. now intros ->. Qed.

Lemma unwarn_settled (s : t) : invalid_dims s = false -> unwarn s = s.
Proof. unfold unwarn. now intros ->. Qed.

Lemma warning_view_evict (s : t) : warning_view (evict s) = warning_view s.
Proof. unfold warning_view. now rewrite dims_evict. Qed.

Lemma warning_view_drawn (s : t) (xs ys : list num) :
  warning_view (drawn s xs ys) = warning_view s.
Proof. reflexivity. Qed.

Lemma preserves_settled_update : preserves settled update.
Proof.
  intros s Hs. pose proof Hs as (Hd & Hn & Hf & Hl).
  destruct (Nat.ltb_spec 1 (dims s)) as [H|H].
  - assert (Hflag : invalid_dims s = false).
    { rewrite Hf. apply Nat.leb_gt. lia. }
    rewrite (update_valid_dims s H).
    destruct (JS.get (snapshot s) (index_x s)) as [[|x xs]|];
      [| destruct (JS.get (snapshot s) (index_y s)) as [ys|] |]; cbn [st];
      rewrite ?unwarn_settled by exact Hflag;
      try (apply (@settled_view s (evict s) (warning_view_evict s) Hs)).
  - assert (Hflag : invalid_dims s = true).
    { rewrite Hf. apply Nat.leb_le. lia. }
    rewrite (update_invalid s H). cbn [st].
    rewrite warn_settled by exact Hflag.
    apply (@settled_view s (evict s) (warning_view_evict s) Hs).
Qed.

(** The first redraw settles the warning. *)
Lemma update_fresh (s : t) : fresh s -> settled (st (update s)).
Proof.
  intros (Hd & Hn & Hf & Hl).
  destruct (Nat.ltb_spec 1 (dims s)) as [H|H].
  - apply preserves_settled_update. unfold settled.
    assert (Hleb : (n_lines s <=? 1)%nat = false) by (apply Nat.leb_gt; lia).
    rewrite Hleb, Hl. auto.
  - rewrite (update_invalid s H). cbn [st].
    assert (Hleb : (n_lines s <=? 1)%nat = true) by (apply Nat.leb_le; lia).
    unfold warn. change (invalid_dims (evict s)) with (invalid_dims s).
    rewrite Hf.
    set (s' := set_warning_label _ _).
    assert (H1 : dims s' = dims s) by (change (dims (evict s) = dims s); apply dims_evict).
    assert (H2 : n_lines s' = n_lines s) by reflexivity.
    assert (H3 : invalid_dims s' = true) by reflexivity.
    assert (H4 : length (warning_label s') = 1%nat).
    { subst s'. cbn. change (warning_label (evict s)) with (warning_label s).
      rewrite Hl. reflexivity. }
    unfold settled. rewrite H1, H2, H3, H4, Hleb. auto.
Qed.

Lemma length_resize_first_rect (w h : num) (l : list Rect) :
  length (resize_first_rect w h l) = length l.
Proof. destruct l; reflexivity. Qed.

Lemma on_resize_rest_settled (w h : num) :
  preserves settled
    (modify (set_width w) ;;
     modify (set_height h) ;;
     modify (fun s =>
       set_recent_circle
         (mkCircle (get_circle_radius s) (cx (recent_circle s))
            (cy (recent_circle s))) s) ;;
     modify (fun s =>
       set_warning_label
         (resize_first_rect (JS.sub w (Fin 100)) (JS.sub h (Fin 100))
            (warning_label s)) s)).
Proof.
  repeat (apply preserves_bind; [|intros _]);
    apply preserves_settled_modify; intro s; try reflexivity.
  unfold warning_view. cbn. now rewrite length_resize_first_rect.
Qed.

Lemma preserves_settled_on_resize (w h : num) : preserves settled (on_resize w h).
Proof.
  unfold on_resize.
  apply preserves_bind; [apply preserves_settled_modify; reflexivity | intros _].
  apply preserves_bind; [apply preserves_settled_update | intros _].
  apply on_resize_rest_settled.
Qed.

Lemma preserves_settled_update_range (min max : num) :
  preserves settled (update_range min max).
Proof.
  unfold update_range.
  apply preserves_bind; [apply preserves_settled_modify; reflexivity | intros _].
  apply preserves_bind; [apply preserves_this | intros s0].
  apply preserves_settled_on_resize.
Qed.

Lemma preserves_settled_update_indices (ix iy : num) :
  preserves settled (update_indices ix iy).
Proof.
  unfold update_indices.
  apply preserves_bind; [apply preserves_settled_modify; reflexivity | intros _].
  apply preserves_bind; [apply preserves_settled_modify; reflexivity | intros _].
  apply preserves_settled_update.
Qed.

Lemma push_dims (sim0 : SimControl) (sample : list num) (d : DataStore.t) :
  length (DataStore.data (DataStore.push sim0 sample d)) =
  length (DataStore.data d).
Proof.
  unfold DataStore.push.
  destruct (Nat.eqb_spec (length sample) (length (DataStore.data d))) as [E|E];
    [|reflexivity].
  cbn [DataStore.data]. rewrite length_map, length_combine, E. apply Nat.min_id.
Qed.

Lemma preserves_settled_schedule_update : preserves settled schedule_update.
Proof. apply preserves_settled_modify. reflexivity. Qed.

Lemma preserves_settled_call (base : Layout -> M unit) (c : Call) :
  (forall config, preserves settled (base config)) ->
  forall s, settled s -> settled (after base c s).
Proof.
  intros Hbase s Hs. destruct c as [data| |sim'| | |w h|val|val|min max|ix iy|config];
    cbn [after]; revert s Hs.
  - unfold on_message.
    apply preserves_bind; [|intros _; apply preserves_settled_schedule_update].
    apply preserves_settled_modify. intro s. unfold warning_view, dims. cbn.
    now rewrite push_dims.
  - unfold frame. apply preserves_bind; [apply preserves_this | intros s0].
    destruct (pending_update s0); [|apply preserves_ret].
    apply preserves_bind; [apply preserves_settled_modify; reflexivity | intros _].
    apply preserves_settled_update.
  - unfold adjust_time.
    apply preserves_bind; [|intros _; apply preserves_settled_schedule_update].
    apply preserves_settled_modify. reflexivity.
  - unfold reset.
    apply preserves_bind; [|intros _; apply preserves_settled_schedule_update].
    apply preserves_settled_modify. intro s. unfold warning_view, dims. cbn.
    now rewrite length_map.
  - apply preserves_settled_update.
  - apply preserves_settled_on_resize.
  - unfold set_range.
    destruct (modal_rejects set_range_validator val); [apply preserves_ret|].
    apply preserves_bind; [apply preserves_settled_update_range | intros _].
    apply preserves_bind; [apply preserves_settled_update | intros _].
    apply preserves_bind; [apply preserves_save_layout | intros _].
    apply preserves_ret.
  - unfold set_indices.
    apply preserves_bind; [apply preserves_this | intros s0].
    destruct (modal_rejects (set_indices_validator (n_lines s0)) val);
      [apply preserves_ret|].
    apply preserves_bind; [apply preserves_settled_update_indices | intros _].
    apply preserves_bind; [apply preserves_save_layout | intros _].
    apply preserves_ret.
  - apply preserves_settled_update_range.
  - apply preserves_settled_update_indices.
  - unfold update_layout.
    apply preserves_bind; [apply preserves_settled_update_indices | intros _].
    apply preserves_bind; [apply preserves_settled_update_range | intros _].
    apply Hbase.
Qed.

Lemma create_settled (sim0 : SimControl) (args : Args) :
  settled (st (create sim0 args)).
Proof.
  unfold create, on_resize. rewrite st_bind_modify.
  apply bind_establishes with (P := settled).
  - apply update_fresh. unfold fresh, dims. cbn.
    rewrite repeat_length. repeat split.
    unfold n_lines_or_1. destruct (args_n_lines args) as [[|k]|]; lia.
  - intros _. apply on_resize_rest_settled.
Qed.

(** X4.  In every state of a component, from the constructor on and
    after any calls of its listeners, dialogs and methods, however they
    end: the store has [n_lines] dimensions, at least one; [invalid_dims] is
    [n_lines <= 1]; and the warning label holds exactly one rectangle for a
    single dimension and none otherwise.  The warning is decided once, by the
    dimension count, and never changes afterwards.  (The base class is one
    that keeps this too.) *)
Theorem warning_settled_for_life (base : Layout -> M unit) (s : t) :
  (forall config, preserves settled (base config)) ->
  reachable base s ->
  dims s = n_lines s /\
  (1 <= n_lines s)%nat /\
  invalid_dims s = (n_lines s <=? 1)%nat /\
  length (warning_label s) = (if (n_lines s <=? 1)%nat then 1 else 0)%nat.
Proof.
  intros Hbase Hreach. change (settled s).
  induction Hreach as [sim0 args | c s Hreach IH].
  - apply create_settled.
  - apply preserves_settled_call; assumption.
Qed.

(** A plot of three dimensions after a sample, a reset, the restore of
    a bad layout and a redraw: the flag is down, the label empty. *)
Lemma warning_settled_for_life_witness :
  invalid_dims example_life = (n_lines example_life <=? 1)%nat /\
  length (warning_label example_life) =
    (if (n_lines example_life <=? 1)%nat then 1 else 0)%nat.
Proof.
  refine (let H := @warning_settled_for_life Scenario.no_base example_life _ _ in
          conj (proj1 (proj2 (proj2 H))) (proj2 (proj2 (proj2 H)))).
  - intros config s Hs. exact Hs.
  - unfold example_life. repeat apply reach_after. apply reach_create.
Defined.

(** ** Resizing *)

Lemma out_bind {A B : Type} (m : M A) (f : A -> M B) (s : t) :
  out (bind m f s) =
  match out (m s) with
  | Ok a => out (f a (st (m s)))
  | TypeError => TypeError
  end.
Proof. unfold bind. destruct (out (m s)); reflexivity. Qed.

Lemma st_bind {A B : Type} (m : M A) (f : A -> M B) (s : t) :
  st (bind m f s) =
  match out (m s) with
  | Ok a => st (f a (st (m s)))
  | TypeError => st (m s)
  end.
Proof. unfold bind. destruct (out (m s)); reflexivity. Qed.

Lemma on_resize_out (w h : num) (s : t) :
  out (on_resize w h s) =
  out (update (set_axes2d (XYAxes.on_resize w h (axes2d s)) s)).
Proof.
  unfold on_resize. rewrite out_bind. cbn [modify out st].
  rewrite out_bind. destruct (out (update _)) as [[]|]; reflexivity.
Qed.

Lemma on_resize_st (w h : num) (s : t) :
  let r1 := update (set_axes2d (XYAxes.on_resize w h (axes2d s)) s) in
  st (on_resize w h s) =
  match out r1 with
  | Ok _ =>
      set_warning_label
        (resize_first_rect (JS.sub w (Fin 100)) (JS.sub h (Fin 100))
           (warning_label (st r1)))
        (set_recent_circle
           (mkCircle (JS.div (JS.min w h) (Fin 30))
              (cx (recent_circle (st r1))) (cy (recent_circle (st r1))))
           (set_height h (set_width w (st r1))))
  | TypeError => st r1
  end.
Proof.
  cbv zeta. unfold on_resize. rewrite st_bind_modify, st_bind.
  destruct (out (update _)) as [[]|]; reflexivity.
Qed.

(** X5.  [on_resize] redraws first and records the size afterwards: it
    ends as its redraw ends and renders what the redraw renders.  When the
    redraw ends normally, [width] and [height] are the new ones, the radius
    of the circle is [min(width, height) / 30] and the first rectangle of
    the warning label, if any, is 100 less in each direction.  When the
    redraw stops, none of this is reached: size and circle are as before.
    Either way the indices and the domains of the axes are as before. *)
Theorem on_resize_records_size_after_redraw (w h : num) (s : t) :
  let redraw := update (set_axes2d (XYAxes.on_resize w h (axes2d s)) s) in
  let s' := st (on_resize w h s) in
  out (on_resize w h s) = out redraw /\
  evs (on_resize w h s) = evs redraw /\
  (completes redraw = true ->
   width s' = w /\ height s' = h /\
   r (recent_circle s') = JS.div (JS.min w h) (Fin 30) /\
   warning_label s' =
     resize_first_rect (JS.sub w (Fin 100)) (JS.sub h (Fin 100))
       (warning_label (st redraw))) /\
  (completes redraw = false ->
   width s' = width s /\ height s' = height s /\
   recent_circle s' = recent_circle s) /\
  indices s' = indices s /\
  domains s' = domains s.
Proof.
  cbv zeta. split; [apply on_resize_out|]. split; [apply on_resize_evs|].
  split; [|split; [|split]].
  - unfold completes. rewrite on_resize_st.
    destruct (out (update _)); [|discriminate]. intros _. repeat split.
  - intro H. rewrite on_resize_st.
    rewrite (update_stopped_state _ H). cbn [out st]. repeat split.
  - apply preserves_on_resize_indices. reflexivity.
  - apply preserves_on_resize_domains. reflexivity.
Qed.

(** Three samples resized to 60 by 30: the radius is 1.  With a bad index
    the size is not recorded. *)
Lemma on_resize_records_size_after_redraw_witness :
  (width (st (on_resize (Fin 60) (Fin 30) Scenario.three_samples)) = Fin 60 /\
   r (recent_circle (st (on_resize (Fin 60) (Fin 30) Scenario.three_samples))) =
     JS.div (JS.min (Fin 60) (Fin 30)) (Fin 30)) /\
  width (st (on_resize (Fin 60) (Fin 30)
               (set_index_x (Fin 3) Scenario.three_samples))) = Fin 20.
Proof.
  split.
  - destruct (proj1 (proj2 (proj2 (on_resize_records_size_after_redraw
                (Fin 60) (Fin 30) Scenario.three_samples))))
      as (Hw & _ & Hr & _).
    + vm_compute. reflexivity.
    + split; [exact Hw | exact Hr].
  - destruct (proj1 (proj2 (proj2 (proj2 (on_resize_records_size_after_redraw
                (Fin 60) (Fin 30) (set_index_x (Fin 3) Scenario.three_samples))))))
      as (Hw & _).
    + vm_compute. reflexivity.
    + exact Hw.
Defined.

(** ** The range and the layout *)

Lemma preserves_update_range_fields v : preserves (fun s => range_fields s = v) update.
Proof.
  intros s Hs. unfold range_fields. destruct (update_frame s) as (-> & _). exact Hs.
Qed.

Lemma preserves_on_resize_range_fields v (w h : num) :
  preserves (fun s => range_fields s = v) (on_resize w h).
Proof.
  unfold on_resize.
  repeat (apply preserves_bind; [|intros _]);
    try (apply preserves_modify; intros s Hs; exact Hs).
  apply preserves_update_range_fields.
Qed.

Lemma update_range_range_fields (min max : num) (s : t) :
  range_fields (st (update_range min max s)) =
  (min, max, (min, max), (min, max), (min, max), (min, max)).
Proof.
  unfold update_range. rewrite st_bind_modify, st_bind_this.
  apply preserves_on_resize_range_fields. reflexivity.
Qed.

Lemma preserves_update_indices_range_fields v (ix iy : num) :
  preserves (fun s => range_fields s = v) (update_indices ix iy).
Proof.
  unfold update_indices.
  repeat (apply preserves_bind; [|intros _]);
    try (apply preserves_modify; intros s Hs; exact Hs).
  apply preserves_update_range_fields.
Qed.

(** X6.  [update_range] keeps the axes in step: whatever the arguments
    and however the redraw ends, afterwards [min_val] and [max_val], the
    domains of both scales and the tick values of both axes are all the
    pair given, and the indices are as before. *)
Theorem update_range_sets_all_range_fields (min max : num) (s : t) :
  let a := axes2d (st (update_range min max s)) in
  XYAxes.min_val a = min /\ XYAxes.max_val a = max /\
  XYAxes.domain (XYAxes.scale_x a) = (min, max) /\
  XYAxes.domain (XYAxes.scale_y a) = (min, max) /\
  XYAxes.tick_values_x a = (min, max) /\
  XYAxes.tick_values_y a = (min, max) /\
  indices (st (update_range min max s)) = indices s.
Proof.
  cbv zeta. split; [|split; [|split; [|split; [|split; [|split]]]]].
  7: apply preserves_update_range_indices; reflexivity.
  all: pose proof (update_range_range_fields min max s) as H;
    unfold range_fields in H;
    set (a := axes2d (st (update_range min max s))) in *; clearbody a;
    injection H as H1 H2 H3 H4 H5 H6; assumption.
Qed.

Lemma update_layout_indices (base : Layout -> M unit) (config : Layout) (s : t) :
  (forall i, preserves (fun s' => indices s' = i) (base config)) ->
  indices (st (update_layout base config s)) =
  (cfg_index_x config, cfg_index_y config).
Proof.
  intro Hbi. unfold update_layout.
  apply bind_establishes
    with (P := fun s' => indices s' = (cfg_index_x config, cfg_index_y config)).
  - apply update_indices_indices.
  - intros _.
    apply preserves_bind; [apply preserves_update_range_indices | intros _].
    apply Hbi.
Qed.

Lemma update_layout_domains (base : Layout -> M unit) (config : Layout) (s : t) :
  (forall d, preserves (fun s' => domains s' = d) (base config)) ->
  completes (update_indices (cfg_index_x config) (cfg_index_y config) s) = true ->
  domains (st (update_layout base config s)) =
  ((min_value config, max_value config), (min_value config, max_value config)).
Proof.
  intros Hbd Hok. unfold update_layout.
  destruct (st_bind_completes
              (update_indices (cfg_index_x config) (cfg_index_y config))
              (fun _ => bind (update_range (min_value config) (max_value config))
                          (fun _ => base config)) s Hok) as (u & Hu).
  rewrite Hu.
  apply bind_establishes
    with (P := fun s' => domains s' = ((min_value config, max_value config),
                                       (min_value config, max_value config))).
  - apply update_range_domains.
  - intros _. apply Hbd.
Qed.

(** X7.  Saving and restoring a layout is a round trip: after
    [update_layout] with a configuration whose indices can be drawn (the
    redraw of the indices ends normally), [layout_info] reports that very
    configuration: range and indices.  (The base class is one that leaves
    indices and domains alone.) *)
Theorem layout_info_after_update_layout
    (base : Layout -> M unit) (config : Layout) (s : t) :
  (forall i, preserves (fun s' => indices s' = i) (base config)) ->
  (forall d, preserves (fun s' => domains s' = d) (base config)) ->
  completes (update_indices (cfg_index_x config) (cfg_index_y config) s) = true ->
  layout_info (st (update_layout base config s)) = config.
Proof.
  intros Hbi Hbd Hok.
  pose proof (@update_layout_indices base config s Hbi) as Hi.
  pose proof (@update_layout_domains base config s Hbd Hok) as Hd.
  unfold indices in Hi. unfold domains in Hd. unfold layout_info.
  set (s' := st (update_layout base config s)) in *. clearbody s'.
  injection Hi as Hx Hy. injection Hd as _ Hdy.
  rewrite Hx, Hy, Hdy. destruct config; reflexivity.
Qed.

(** The saved layout of the scenario comes back as it went in. *)
Lemma layout_info_after_update_layout_witness :
  layout_info
    (st (update_layout Scenario.no_base Scenario.saved_layout
           Scenario.three_samples)) = Scenario.saved_layout.
Proof.
  apply layout_info_after_update_layout.
  - intros i s Hs. exact Hs.
  - intros d s Hs. exact Hs.
  - vm_compute. reflexivity.
Defined.

Lemma bind_modify_run {B : Type} (f : t -> t) (k : unit -> M B) (s : t) :
  bind (modify f) k s = k tt (f s).
Proof.
  unfold bind, modify. cbn [out st evs app]. destruct (k tt (f s)); reflexivity.
Qed.

Lemma update_indices_run (ix iy : num) (s : t) :
  update_indices ix iy s = update (set_index_y iy (set_index_x ix s)).
Proof. unfold update_indices. now rewrite !bind_modify_run. Qed.

(** X8.  A layout whose [index_x] selects no dimension stops
    [update_layout] half way when there are two or more dimensions: the
    indices are stored, the redraw stops with a [TypeError], and neither
    [update_range] nor the base class is reached.  Nothing is rendered and
    the range (bounds, domains, tick values) stays as it was, so the
    component is left with the new indices and the old range. *)
Theorem update_layout_stops_before_range
    (base : Layout -> M unit) (config : Layout) (s : t) :
  (1 < dims s)%nat ->
  JS.get (snapshot s) (cfg_index_x config) = None ->
  update_layout base config s =
    mkRes TypeError
      (evict (set_index_y (cfg_index_y config)
                (set_index_x (cfg_index_x config) s))) [] /\
  indices (st (update_layout base config s)) =
    (cfg_index_x config, cfg_index_y config) /\
  range_fields (st (update_layout base config s)) = range_fields s.
Proof.
  intros Hd Hx.
  set (s2 := set_index_y (cfg_index_y config) (set_index_x (cfg_index_x config) s)).
  assert (Hrun : update s2 = mkRes TypeError (evict s2) []).
  { rewrite (update_valid_dims s2 Hd).
    change (snapshot s2) with (snapshot s).
    change (index_x s2) with (cfg_index_x config). now rewrite Hx. }
  assert (Hlay : update_layout base config s = mkRes TypeError (evict s2) []).
  { unfold update_layout. rewrite bind_error; rewrite update_indices_run;
      fold s2; rewrite Hrun; reflexivity. }
  rewrite Hlay. cbn [st]. repeat split.
Qed.

(** Three samples and the layout with index 9: the restore stops, the
    domains stay [-10, 10]. *)
Lemma update_layout_stops_before_range_witness :
  out (update_layout Scenario.no_base Scenario.unchecked_layout
         Scenario.three_samples) = TypeError /\
  domains (st (update_layout Scenario.no_base Scenario.unchecked_layout
                 Scenario.three_samples)) =
    ((Fin (-10), Fin 10), (Fin (-10), Fin 10)).
Proof.
  destruct (@update_layout_stops_before_range Scenario.no_base
              Scenario.unchecked_layout Scenario.three_samples)
    as (Hrun & _ & Hrange).
  - vm_compute. lia.
  - vm_compute. reflexivity.
  - split.
    + rewrite Hrun. reflexivity.
    + unfold range_fields in Hrange. unfold domains.
      set (a := axes2d (st (update_layout Scenario.no_base
                              Scenario.unchecked_layout
                              Scenario.three_samples))) in *.
      clearbody a. injection Hrange as _ _ Hx Hy _ _.
      rewrite Hx, Hy. reflexivity.
Defined.

(** ** Further properties of the dialogs *)

Lemma zero_inside (min max : Q) :
  min < max /\ min * max <= 0 <-> min < max /\ min <= 0 /\ 0 <= max.
Proof.
  split.
  - intros (Hlt & Hmul). split; [exact Hlt|].
    destruct (Qlt_le_dec 0 min) as [Hpos|Hneg].
    + exfalso. assert (0 < max) by lra. nra.
    + split; [exact Hneg|].
      destruct (Qlt_le_dec max 0) as [Hmax|Hmax]; [|exact Hmax].
      exfalso. assert (min < 0) by lra. nra.
  - intros (Hlt & Hmin & Hmax). split; [exact Hlt | nra].
Qed.

Lemma underflow_bound_pos : 0 < underflow_bound.
Proof. reflexivity. Qed.

Lemma set_range_accepted_out (val : string) (s : t) :
  set_range_accepts val = true -> out (set_range val s) <> Ok false.
Proof.
  unfold set_range_accepts. intro H. apply negb_true_iff in H.
  unfold set_range. rewrite H.
  rewrite out_bind. destruct (out (update_range _ _ s)); [|discriminate].
  rewrite out_bind. destruct (out (update _)); [|discriminate].
  discriminate.
Qed.

Lemma set_range_accepts_iff (val a b : string) (min max : Q) :
  JS.split_comma val = [a; b] ->
  JS.isNumeric (Some a) = true -> JS.isNumeric (Some b) = true ->
  JS.Number (Some a) = Fin min -> JS.Number (Some b) = Fin max ->
  (set_range_accepts val = true <->
   min < max /\
   ((min <= 0 /\ 0 <= max) \/
    (0 < min * max /\ min * max <= underflow_bound))).
Proof.
  intros Hab Ea Eb Hmin Hmax.
  rewrite set_range_accepts_validator. unfold set_range_validator.
  rewrite Hab. cbn [nth_error length Nat.eqb andb].
  rewrite Ea, Eb, Hmin, Hmax. cbn [andb JS.mul].
  pose proof underflow_bound_pos as Hpos.
  pose proof (le_round_zero (min * max)) as Hround.
  pose proof (lt_Fin min max) as Hlt.
  set (bound := underflow_bound) in *. clearbody bound.
  destruct (JS.lt (Fin min) (Fin max));
    destruct (JS.le (JS.round (min * max)) (Fin 0)); cbn [andb].
  - split; [intros _ | reflexivity].
    assert (H1 : min < max) by now apply Hlt.
    assert (H2 : min * max <= bound) by now apply Hround.
    split; [exact H1|].
    destruct (Qlt_le_dec 0 (min * max)) as [Hp|Hn]; [right; auto | left].
    now apply zero_inside.
  - split; [discriminate|]. intros (H1 & [H2|[_ H2]]).
    + assert (H3 : min * max <= 0) by (apply zero_inside; auto).
      assert (H4 : min * max <= bound) by lra.
      apply Hround in H4. discriminate.
    + apply Hround in H2. discriminate.
  - split; [discriminate|]. intros (H1 & _). apply Hlt in H1. discriminate.
  - split; [discriminate|]. intros (H1 & _). apply Hlt in H1. discriminate.
Qed.

(** X9.  The zero-crossing test of [set_range], [min * max <= 0] for
    [min < max], is made on the product as a double.  A text with two
    numeric fields [min], [max] is taken exactly when [min < max] and
    either zero lies inside the range, ends included, or both bounds are on
    the same side of zero and their product is so small that it is rounded
    to zero (it is at most 2^-1075); any other such text makes [set_range]
    return at once, with the state as it was and nothing rendered or saved.
    So [0,5] and [-5,0] are taken and [0,0] is not. *)
Theorem set_range_accepts_zero_inside_or_underflow
    (val a b : string) (min max : Q) (s : t) :
  JS.split_comma val = [a; b] ->
  JS.isNumeric (Some a) = true -> JS.isNumeric (Some b) = true ->
  JS.Number (Some a) = Fin min -> JS.Number (Some b) = Fin max ->
  (set_range_accepts val = true <->
   min < max /\
   ((min <= 0 /\ 0 <= max) \/
    (0 < min * max /\ min * max <= underflow_bound))) /\
  (set_range val s = mkRes (Ok false) s [] <->
   ~ (min < max /\
      ((min <= 0 /\ 0 <= max) \/
       (0 < min * max /\ min * max <= underflow_bound)))).
Proof.
  intros Hab Ea Eb Hmin Hmax.
  pose proof (@set_range_accepts_iff val a b min max Hab Ea Eb Hmin Hmax) as Hiff.
  split; [exact Hiff|].
  set (bound := underflow_bound) in *. clearbody bound.
  split.
  - intros E Hc. apply Hiff in Hc.
    apply (@set_range_accepted_out val s Hc). now rewrite E.
  - intro Hn. apply set_range_rejected.
    destruct (set_range_accepts val); [|reflexivity].
    exfalso. apply Hn, Hiff. reflexivity.
Qed.

Lemma set_range_accepts_zero_inside_or_underflow_witness :
  set_range_accepts "0,5" = true /\ set_range_accepts "-5,0" = true /\
  set_range "0,0" Scenario.three_samples =
    mkRes (Ok false) Scenario.three_samples [].
Proof.
  split; [|split].
  - apply (@set_range_accepts_zero_inside_or_underflow "0,5" "0" "5" 0 5
             Scenario.three_samples);
      try (vm_compute; reflexivity).
    split; [reflexivity|]. left. split; discriminate.
  - apply (@set_range_accepts_zero_inside_or_underflow "-5,0" "-5" "0" (-5) 0
             Scenario.three_samples);
      try (vm_compute; reflexivity).
    split; [reflexivity|]. left. split; discriminate.
  - apply (@set_range_accepts_zero_inside_or_underflow "0,0" "0" "0" 0 0
             Scenario.three_samples);
      try (vm_compute; reflexivity).
    intros [E _]. discriminate E.
Defined.

(** Two tiny positive bounds: the product underflows and the text is
    taken, though zero is not inside the range. *)
Example set_range_takes_underflowing_bounds :
  set_range_accepts "1e-200,2e-200" = true /\
  JS.lt (Fin 0) (JS.Number (Some "1e-200"%string)) = true.
Proof. vm_compute. split; reflexivity. Qed.

Lemma preserves_set_range_indices i (val : string) :
  preserves (fun s => indices s = i) (set_range val).
Proof.
  unfold set_range.
  destruct (modal_rejects set_range_validator val); [apply preserves_ret|].
  apply preserves_bind; [apply preserves_update_range_indices | intros _].
  apply preserves_bind; [apply preserves_update_indices | intros _].
  apply preserves_bind; [apply preserves_save_layout | intros _].
  apply preserves_ret.
Qed.

Lemma preserves_set_indices_range_fields v (val : string) :
  preserves (fun s => range_fields s = v) (set_indices val).
Proof.
  unfold set_indices.
  apply preserves_bind; [intros s Hs; exact Hs | intros s0].
  destruct (modal_rejects (set_indices_validator (n_lines s0)) val);
    [apply preserves_ret|].
  apply preserves_bind; [apply preserves_update_indices_range_fields | intros _].
  apply preserves_bind; [apply preserves_save_layout | intros _].
  apply preserves_ret.
Qed.

(** X10.  The two dialogs do not reach into each other's setting:
    whatever the text and however the call ends, [set_range] leaves both
    indices as they were, and [set_indices] leaves the range (bounds,
    domains and tick values of both axes) as it was. *)
Theorem dialogs_keep_the_other_setting (val : string) (s : t) :
  indices (st (set_range val s)) = indices s /\
  range_fields (st (set_indices val s)) = range_fields s.
Proof.
  split.
  - apply preserves_set_range_indices. reflexivity.
  - apply preserves_set_indices_range_fields. reflexivity.
Qed.

Lemma length_snapshot (s : t) : length (snapshot s) = dims s.
Proof.
  unfold snapshot, DataStore.get_shown_data, DataStore.update, dims.
  cbn [DataStore.data]. now rewrite !length_map.
Qed.

(** A number that is an index below the length selects an element. *)
Lemma get_in_range {A : Type} (arr : list A) (q : Q) (i : nat) :
  q == inject_Z (Z.of_nat i) -> (i < length arr)%nat ->
  JS.get arr (Fin q) = nth_error arr i /\ nth_error arr i <> None.
Proof.
  intros Hq Hi. unfold JS.get.
  assert (Hint : JS.is_integer q = true) by (apply is_integer_iff; eauto).
  assert (Hpos : Qle_bool 0 q = true).
  { apply Qle_bool_iff. rewrite Hq. change 0 with (inject_Z 0).
    rewrite <- Zle_Qle. lia. }
  rewrite Hint, Hpos. cbn [andb].
  rewrite (Qtrunc_comp Hq), Qtrunc_inject_Z, Nat2Z.id.
  split; [reflexivity | now apply nth_error_Some].
Qed.

Lemma update_completes (s : t) :
  (dims s <= 1)%nat \/
  (JS.get (snapshot s) (index_x s) <> None /\
   JS.get (snapshot s) (index_y s) <> None) ->
  out (update s) = Ok tt.
Proof.
  intro H. destruct (Nat.ltb_spec 1 (dims s)) as [Hd|Hd].
  - destruct H as [H|(Hx & Hy)]; [lia|].
    rewrite (update_valid_dims s Hd).
    destruct (JS.get (snapshot s) (index_x s)) as [[|x xs]|];
      [reflexivity | | congruence].
    destruct (JS.get (snapshot s) (index_y s)); [reflexivity | congruence].
  - now rewrite (update_invalid s Hd).
Qed.

Lemma set_indices_accepted_run (val : string) (s : t) :
  set_indices_accepts (n_lines s) val = true ->
  set_indices val s =
  bind (update_indices (JS.parseInt (nth_error (JS.split_comma val) 0))
                       (JS.parseInt (nth_error (JS.split_comma val) 1)))
       (fun _ => bind save_layout (fun _ => ret true)) s.
Proof.
  unfold set_indices_accepts. intro H. apply negb_true_iff in H.
  unfold set_indices. unfold bind at 1, this. cbn [out st evs app].
  rewrite H.
  destruct (bind (update_indices _ _) (fun _ => bind save_layout (fun _ => ret true)) s);
    reflexivity.
Qed.

(** X11.  An empty first field slips through [set_indices]: for the
    validator it is the number 0, an index in range, so a text such as [,1]
    is taken; but [parseInt] of the empty field is [NaN], and that is what
    gets stored as [index_x].  With two or more dimensions the redraw then
    stops with a [TypeError], nothing is rendered and the layout is not
    saved. *)
Theorem set_indices_takes_empty_field (val b : string) (s : t) :
  JS.split_comma val = [EmptyString; b] ->
  index_in_range (n_lines s) (Some b) ->
  set_indices_accepts (n_lines s) val = true /\
  index_x (st (set_indices val s)) = NaN /\
  ((1 < dims s)%nat ->
   out (set_indices val s) = TypeError /\ evs (set_indices val s) = []).
Proof.
  intros Hab Hb.
  assert (Hacc : set_indices_accepts (n_lines s) val = true).
  { rewrite set_indices_accepts_validator. apply set_indices_validator_iff.
    exists EmptyString, b. split; [exact Hab|]. split; [|exact Hb].
    destruct Hb as (q & i & _ & _ & Hi).
    exists 0, 0%nat. split; [reflexivity|]. split; [reflexivity | lia]. }
  split; [exact Hacc|].
  rewrite (set_indices_accepted_run val s Hacc), Hab. cbn [nth_error].
  change (JS.parseInt (Some EmptyString)) with NaN.
  split.
  - apply bind_establishes with (P := fun s' => index_x s' = NaN).
    + pose proof (update_indices_indices NaN (JS.parseInt (Some b)) s) as Hi.
      unfold indices in Hi.
      set (s' := st (update_indices NaN (JS.parseInt (Some b)) s)) in *.
      clearbody s'. injection Hi as Hx _. exact Hx.
    + intros _ s' Hs'. exact Hs'.
  - intro Hd.
    assert (Hrun : update_indices NaN (JS.parseInt (Some b)) s =
                   mkRes TypeError
                     (evict (set_index_y (JS.parseInt (Some b)) (set_index_x NaN s)))
                     []).
    { rewrite update_indices_run.
      rewrite (update_valid_dims (set_index_y _ (set_index_x NaN s)) Hd).
      reflexivity. }
    rewrite out_bind, evs_bind, Hrun. cbn [out st evs]. auto.
Qed.

(** Three samples and the text [,1]: taken, stored as [NaN], and the
    redraw stops. *)
Lemma set_indices_takes_empty_field_witness :
  set_indices_accepts 3 ",1" = true /\
  index_x (st (set_indices ",1" Scenario.three_samples)) = NaN /\
  out (set_indices ",1" Scenario.three_samples) = TypeError.
Proof.
  destruct (@set_indices_takes_empty_field ",1" "1" Scenario.three_samples)
    as (Hacc & Hx & Hstop).
  - reflexivity.
  - exists 1, 1%nat. split; [reflexivity|]. split; [reflexivity|].
    vm_compute. lia.
  - split; [exact Hacc|]. split; [exact Hx|].
    apply Hstop. vm_compute. lia.
Defined.

Lemma save_layout_run {B : Type} (b : B) (s : t) :
  bind save_layout (fun _ => ret b) s = mkRes (Ok b) s [SaveLayout (layout_info s)].
Proof. reflexivity. Qed.

Lemma index_in_range_get (n : nat) (x : option string) (arr : list (list num)) :
  index_in_range n x -> length arr = n -> JS.get arr (JS.Number x) <> None.
Proof.
  intros (q & i & -> & Hq & Hi) Hlen.
  destruct (@get_in_range _ arr q i Hq) as (-> & Hsome); [lia | exact Hsome].
Qed.

(** X12.  A text that [set_indices] takes, and whose two fields read the
    same under [parseInt] as under [Number] (plain integers do), is carried
    out in full on a store of [n_lines] dimensions: the call ends normally
    and reports that the dialog closes; the stored indices are the two
    numbers; at most one rendering is emitted, and after it the layout is
    saved, with these indices and the range the Y axis has. *)
Theorem set_indices_stores_and_saves (val a b : string) (s : t) :
  JS.split_comma val = [a; b] ->
  set_indices_accepts (n_lines s) val = true ->
  JS.parseInt (Some a) = JS.Number (Some a) ->
  JS.parseInt (Some b) = JS.Number (Some b) ->
  dims s = n_lines s ->
  out (set_indices val s) = Ok true /\
  indices (st (set_indices val s)) = (JS.Number (Some a), JS.Number (Some b)) /\
  exists draws : list Event,
    (length draws <= 1)%nat /\
    evs (set_indices val s) =
      draws ++
      [SaveLayout
         (mkLayout (fst (XYAxes.domain (XYAxes.scale_y (axes2d s))))
                   (snd (XYAxes.domain (XYAxes.scale_y (axes2d s))))
                   (JS.Number (Some a)) (JS.Number (Some b)))].
Proof.
  intros Hab Hacc Ha Hb Hdims.
  pose proof Hacc as Hval.
  rewrite set_indices_accepts_validator in Hval.
  apply set_indices_validator_iff in Hval.
  destruct Hval as (a' & b' & Hab' & Hia & Hib).
  rewrite Hab in Hab'. injection Hab' as <- <-.
  rewrite (set_indices_accepted_run val s Hacc), Hab. cbn [nth_error].
  rewrite Ha, Hb.
  set (ix := JS.Number (Some a)) in *. set (iy := JS.Number (Some b)) in *.
  set (s2 := set_index_y iy (set_index_x ix s)).
  assert (Hrun : update_indices ix iy s = update s2) by apply update_indices_run.
  assert (Hok : out (update s2) = Ok tt).
  { apply update_completes. right.
    change (index_x s2) with ix. change (index_y s2) with iy.
    change (snapshot s2) with (snapshot s).
    split; eapply index_in_range_get; try eassumption;
      rewrite length_snapshot; exact Hdims. }
  destruct (update_frame s2) as (Haxes & Hx & Hy & _).
  assert (Hlen : (length (evs (update s2)) <= 1)%nat).
  { destruct (update_events s2) as [-> | (xs & ys & -> & _)]; simpl; lia. }
  rewrite <- Hrun in Hok, Haxes, Hx, Hy, Hlen.
  rewrite (bind_ok _ _ _ Hok), save_layout_run. cbn [out st evs].
  split; [reflexivity|]. split.
  - unfold indices. now rewrite Hx, Hy.
  - exists (evs (update_indices ix iy s)). split; [exact Hlen|].
    unfold layout_info. now rewrite Haxes, Hx, Hy.
Qed.

(** Three samples and the text [2,0]: the indices become 2 and 0 and the
    layout is saved. *)
Lemma set_indices_stores_and_saves_witness :
  out (set_indices "2,0" Scenario.three_samples) = Ok true /\
  indices (st (set_indices "2,0" Scenario.three_samples)) = (Fin 2, Fin 0).
Proof.
  destruct (@set_indices_stores_and_saves "2,0" "2" "0" Scenario.three_samples)
    as (Hout & Hind & _); try reflexivity.
  split; [exact Hout | exact Hind].
Defined.

(** ** What a redraw depends on *)

Lemma same_inputs_snapshot (s s' : t) : same_inputs s s' -> snapshot s' = snapshot s.
Proof. intros (Hs & _ & _ & _ & Hd). unfold snapshot. now rewrite Hd, Hs. Qed.

Lemma same_inputs_dims (s s' : t) : same_inputs s s' -> dims s' = dims s.
Proof.
  intros (_ & _ & _ & _ & Hd).
  rewrite <- (dims_evict s), <- (dims_evict s'). unfold dims, evict.
  cbn [data_store set_data_store]. now rewrite Hd.
Qed.

Lemma update_depends_on_inputs_facts (s s' : t) :
  same_inputs s s' ->
  out (update s') = out (update s) /\ evs (update s') = evs (update s).
Proof.
  intro H. pose proof (@same_inputs_snapshot s s' H) as Hsnap.
  pose proof (@same_inputs_dims s s' H) as Hdims.
  destruct H as (_ & Haxes & Hx & Hy & _).
  destruct (Nat.ltb_spec 1 (dims s)) as [Hd|Hd].
  - assert (Hd' : (1 < dims s')%nat) by (now rewrite Hdims).
    rewrite (update_valid_dims s Hd), (update_valid_dims s' Hd'), Hsnap, Hx, Hy.
    destruct (JS.get (snapshot s) (index_x s)) as [[|x xs]|]; auto.
    destruct (JS.get (snapshot s) (index_y s)) as [ys|]; auto.
    cbn [out evs]. unfold drawing. now rewrite Haxes, Hx, Hy.
  - assert (Hd' : (dims s' <= 1)%nat) by (now rewrite Hdims).
    rewrite (update_invalid s Hd), (update_invalid s' Hd'). auto.
Qed.

(** X13.  What [update] renders and how it ends depend only on the
    simulation control, the axes, the two indices and the store as it is
    after clearing out old values: two states that agree on these redraw to
    the same renderings and the same outcome, whatever their path, circle,
    warning, sizes or pending flag. *)
Theorem update_depends_on_inputs (s s' : t) :
  same_inputs s s' ->
  out (update s') = out (update s) /\ evs (update s') = evs (update s).
Proof. exact (@update_depends_on_inputs_facts s s'). Qed.

(** The state of the scenario and the same with another path, circle and
    size render the same. *)
Lemma update_depends_on_inputs_witness :
  evs (update (set_width (Fin 7) (set_path None Scenario.three_samples))) =
  evs (update Scenario.three_samples).
Proof.
  apply (@update_depends_on_inputs Scenario.three_samples
           (set_width (Fin 7) (set_path None Scenario.three_samples))).
  repeat split.
Defined.

Lemma bind_this_run {B : Type} (k : t -> M B) (s : t) : bind this k s = k s s.
Proof.
  unfold bind, this. cbn [out st evs app]. destruct (k s s); reflexivity.
Qed.

Lemma data_store_update (s : t) :
  data_store (st (update s)) = DataStore.update (sim s) (data_store s).
Proof.
  destruct (Nat.ltb_spec 1 (dims s)) as [H|H].
  - rewrite (update_valid_dims s H).
    destruct (JS.get (snapshot s) (index_x s)) as [[|x xs]|];
      [| destruct (JS.get (snapshot s) (index_y s)) as [ys|] |];
      cbn [st]; destruct s as [? ? ? ? ? ? ? ? ? [|] ? ? ? ? ?]; reflexivity.
  - rewrite (update_invalid s H). cbn [st].
    destruct s as [? ? ? ? ? ? ? ? ? [|] ? ? ? ? ?]; reflexivity.
Qed.

(** A redraw ends the same way under any axes. *)
Lemma update_completes_any_axes (a : XYAxes.t) (s : t) :
  completes (update s) = true -> completes (update (set_axes2d a s)) = true.
Proof.
  intro H. destruct (completes (update (set_axes2d a s))) eqn:E; [reflexivity|].
  apply update_stops in E.
  assert (Hs : completes (update s) = false) by (apply update_stops; exact E).
  congruence.
Qed.

Lemma set_range_accepted_run (val : string) (s : t) :
  set_range_accepts val = true ->
  set_range val s =
  bind (update_range (JS.parseFloat (nth_error (JS.split_comma val) 0))
                     (JS.parseFloat (nth_error (JS.split_comma val) 1)))
       (fun _ => bind update (fun _ => bind save_layout (fun _ => ret true))) s.
Proof.
  unfold set_range_accepts. intro H. apply negb_true_iff in H.
  unfold set_range. now rewrite H.
Qed.

(** The run of an accepted range, for any two bounds: what [set_range]
    does after its validator. *)
Lemma accepted_range_redraws_twice_and_saves (min max : num) (s : t) :
  completes (update s) = true ->
  out (bind (update_range min max)
         (fun _ => bind update (fun _ => bind save_layout (fun _ => ret true))) s) =
    Ok true /\
  domains (st (bind (update_range min max)
         (fun _ => bind update (fun _ => bind save_layout (fun _ => ret true))) s)) =
    ((min, max), (min, max)) /\
  exists draws : list Event,
    (length draws <= 1)%nat /\
    evs (bind (update_range min max)
         (fun _ => bind update (fun _ => bind save_layout (fun _ => ret true))) s) =
      draws ++ draws ++
      [SaveLayout (mkLayout min max (index_x s) (index_y s))].
Proof.
  intros Hcan.
  cut (out (bind (update_range min max)
         (fun _ => bind update (fun _ => bind save_layout (fun _ => ret true))) s) =
         Ok true /\
       exists draws : list Event,
         (length draws <= 1)%nat /\
         evs (bind (update_range min max)
              (fun _ => bind update (fun _ => bind save_layout (fun _ => ret true))) s) =
           draws ++ draws ++
           [SaveLayout (mkLayout min max (index_x s) (index_y s))]).
  { intros [Hout Hevs]. split; [exact Hout|]. split; [|exact Hevs].
    apply bind_establishes
      with (P := fun s' => domains s' = ((min, max), (min, max))).
    - apply update_range_domains.
    - intros _.
      apply preserves_bind; [apply preserves_update_domains | intros _].
      apply preserves_bind; [apply preserves_save_layout | intros _].
      apply preserves_ret. }
  (* the redraw inside update_range *)
  set (sF := set_axes2d
               (XYAxes.mk min max
                  (XYAxes.set_domain (min, max) (XYAxes.scale_x (axes2d s)))
                  (XYAxes.set_domain (min, max) (XYAxes.scale_y (axes2d s)))
                  (min, max) (min, max)) s).
  set (s1 := set_axes2d
               (XYAxes.on_resize (screen_width s) (screen_height s) (axes2d sF)) sF).
  assert (Hc1 : completes (update s1) = true).
  { subst s1 sF. now do 2 apply update_completes_any_axes. }
  assert (Hrun : update_range min max s =
                 on_resize (screen_width s) (screen_height s) sF).
  { unfold update_range. rewrite bind_modify_run, bind_this_run. reflexivity. }
  assert (Hout1 : out (update_range min max s) = Ok tt).
  { rewrite Hrun, on_resize_out. fold s1. unfold completes in Hc1.
    destruct (out (update s1)) as [[]|]; [reflexivity | discriminate]. }
  assert (Hevs1 : evs (update_range min max s) = evs (update s1)).
  { rewrite Hrun, on_resize_evs. reflexivity. }
  set (sA := st (update_range min max s)).
  (* the state after update_range agrees with s1 on what a redraw reads *)
  assert (Hsame : same_inputs s1 sA).
  { subst sA. rewrite Hrun, on_resize_st. fold s1.
    unfold completes in Hc1.
    destruct (update_frame s1) as (Haxes & Hx & Hy & _ & Hsim & _).
    pose proof (data_store_update s1) as Hstore.
    destruct (out (update s1)); [|discriminate].
    unfold same_inputs.
    split; [exact Hsim|]. split; [exact Haxes|].
    split; [exact Hx|]. split; [exact Hy|].
    change (DataStore.update (sim (st (update s1))) (data_store (st (update s1))) =
            DataStore.update (sim s1) (data_store s1)).
    rewrite Hsim, Hstore. apply DataStore_update_idem. }
  destruct (@update_depends_on_inputs_facts s1 sA Hsame) as (HoutA & HevsA).
  assert (HoutA' : out (update sA) = Ok tt).
  { rewrite HoutA. unfold completes in Hc1.
    destruct (out (update s1)) as [[]|]; [reflexivity | discriminate]. }
  (* the layout that is saved *)
  assert (Hind : indices (st (update sA)) = indices s).
  { apply preserves_update_indices. subst sA.
    apply preserves_update_range_indices. reflexivity. }
  assert (Hdom : domains (st (update sA)) = ((min, max), (min, max))).
  { apply preserves_update_domains. subst sA. apply update_range_domains. }
  assert (Hlay : layout_info (st (update sA)) =
                 mkLayout min max (index_x s) (index_y s)).
  { unfold indices in Hind. unfold domains in Hdom. unfold layout_info.
    set (sB := st (update sA)) in *. clearbody sB.
    injection Hind as Hx Hy. injection Hdom as _ Hdy.
    now rewrite Hx, Hy, Hdy. }
  rewrite (bind_ok _ _ _ Hout1). fold sA.
  rewrite (bind_ok _ _ sA HoutA'), save_layout_run. cbn [out st evs].
  split; [reflexivity|].
  exists (evs (update s1)). split.
  - destruct (update_events s1) as [-> | (xs & ys & -> & _)]; simpl; lia.
  - rewrite Hevs1, HevsA, Hlay. reflexivity.
Qed.

(** X14.  A range that [set_range] takes is rendered twice and then
    saved.  When the component can redraw (its [update] ends normally), the
    call ends normally and reports that the dialog closes; the range applied
    is the one [parseFloat] reads from the two fields; the redraw of
    [update_range] and the explicit [update] after it emit the same
    rendering, so the events are that rendering twice (or nothing, when
    nothing is drawn), followed by the save of the layout with that range
    and the indices as they were. *)
Theorem set_range_redraws_twice_and_saves (val : string) (min max : num) (s : t) :
  set_range_accepts val = true ->
  JS.parseFloat (nth_error (JS.split_comma val) 0) = min ->
  JS.parseFloat (nth_error (JS.split_comma val) 1) = max ->
  completes (update s) = true ->
  out (set_range val s) = Ok true /\
  domains (st (set_range val s)) = ((min, max), (min, max)) /\
  exists draws : list Event,
    (length draws <= 1)%nat /\
    evs (set_range val s) =
      draws ++ draws ++
      [SaveLayout (mkLayout min max (index_x s) (index_y s))].
Proof.
  intros Hacc Hmin Hmax Hcan.
  rewrite (set_range_accepted_run val s Hacc), Hmin, Hmax.
  now apply accepted_range_redraws_twice_and_saves.
Qed.

(** Three samples and the text [-5,10]: two equal renderings and the save
    of the range [-5, 10] with the indices 0 and 1. *)
Lemma set_range_redraws_twice_and_saves_witness :
  out (set_range "-5,10" Scenario.three_samples) = Ok true /\
  exists draws : list Event,
    evs (set_range "-5,10" Scenario.three_samples) =
      draws ++ draws ++
      [SaveLayout (mkLayout (Fin (-5)) (Fin 10) (Fin 0) (Fin 1))].
Proof.
  destruct (@set_range_redraws_twice_and_saves "-5,10" (Fin (-5)) (Fin 10)
              Scenario.three_samples) as (Hout & _ & draws & _ & Hevs).
  - vm_compute. reflexivity.
  - vm_compute. reflexivity.
  - vm_compute. reflexivity.
  - vm_compute. reflexivity.
  - split; [exact Hout|]. exists draws. exact Hevs.
Defined.

(** ** The constructor *)

Lemma snapshot_init (sim0 : SimControl) (args : Args) (a : XYAxes.t) :
  snapshot (set_axes2d a (init sim0 args)) =
  repeat [] (n_lines_or_1 (args_n_lines args)).
Proof.
  unfold snapshot, DataStore.get_shown_data, DataStore.update, init.
  cbn [sim data_store set_axes2d DataStore.create DataStore.times DataStore.data
       DataStore.count_before skipn].
  rewrite map_skipn_0, map_repeat. reflexivity.
Qed.

Lemma get_repeat_nil (n : nat) (i : num) :
  JS.get (repeat (@nil num) n) i = None \/ JS.get (repeat (@nil num) n) i = Some [].
Proof.
  destruct (JS.get (repeat [] n) i) as [row|] eqn:E; [|now left].
  right. apply get_In in E. apply repeat_spec in E. now subst.
Qed.

Lemma update_init (sim0 : SimControl) (args : Args) (a : XYAxes.t) :
  let s1 := set_axes2d a (init sim0 args) in
  let n := n_lines_or_1 (args_n_lines args) in
  evs (update s1) = [] /\
  path (st (update s1)) = None /\
  data_store (st (update s1)) = DataStore.create n /\
  (completes (update s1) = true <->
   (n <= 1)%nat \/ JS.get (repeat (@nil num) n) (args_index_x args) <> None).
Proof.
  cbv zeta. set (s1 := set_axes2d a (init sim0 args)).
  set (n := n_lines_or_1 (args_n_lines args)).
  assert (Hdims : dims s1 = n) by (unfold dims; cbn; apply repeat_length).
  assert (Hstore : data_store (st (update s1)) = DataStore.create n).
  { rewrite data_store_update. unfold DataStore.update, DataStore.create.
    cbn. now rewrite map_skipn_0. }
  split; [|split; [|split; [exact Hstore|]]].
  - destruct (update_events s1) as [H | (xs & ys & _ & Hx & _ & Hne)]; [exact H|].
    exfalso. unfold s1 in Hx. rewrite snapshot_init in Hx.
    apply get_In, repeat_spec in Hx. congruence.
  - destruct (Nat.ltb_spec 1 (dims s1)) as [Hd|Hd].
    + rewrite (update_valid_dims s1 Hd). unfold s1 at 1. rewrite snapshot_init.
      change (index_x s1) with (args_index_x args). fold n.
      destruct (get_repeat_nil n (args_index_x args)) as [-> | ->]; reflexivity.
    + rewrite (update_invalid s1 Hd). reflexivity.
  - destruct (Nat.ltb_spec 1 (dims s1)) as [Hd|Hd].
    + rewrite (update_valid_dims s1 Hd). unfold s1 at 1. rewrite snapshot_init.
      change (index_x s1) with (args_index_x args). fold n.
      destruct (get_repeat_nil n (args_index_x args)) as [E | E]; rewrite E.
      * split; [discriminate|]. intros [H|H]; [lia | congruence].
      * split; [|reflexivity]. intros _. right. discriminate.
    + rewrite (update_invalid s1 Hd). split; [|reflexivity].
      intros _. left. lia.
Qed.

(** X15.  What the constructor leaves.  The store has [args.n_lines || 1]
    dimensions and is empty; the indices and the range are those of the
    arguments, unchecked; nothing is rendered and there is no path yet;
    [invalid_dims] is up exactly for a single dimension.  The constructor
    ends normally exactly when there is a single dimension or [index_x]
    selects one of the dimensions: with two or more dimensions and an
    [index_x] out of bounds, its closing [on_resize] stops with a
    [TypeError]. *)
Theorem constructor_result (sim0 : SimControl) (args : Args) :
  let n := n_lines_or_1 (args_n_lines args) in
  let c := create sim0 args in
  n_lines (st c) = n /\
  data_store (st c) = DataStore.create n /\
  indices (st c) = (args_index_x args, args_index_y args) /\
  domains (st c) = ((args_min_value args, args_max_value args),
                    (args_min_value args, args_max_value args)) /\
  path (st c) = None /\
  evs c = [] /\
  invalid_dims (st c) = (n <=? 1)%nat /\
  (completes c = true <->
   (n <= 1)%nat \/ JS.get (repeat (@nil num) n) (args_index_x args) <> None).
Proof.
  cbv zeta. unfold create.
  set (w := args_width args). set (h := args_height args).
  set (s0 := init sim0 args).
  destruct (update_init sim0 args (XYAxes.on_resize w h (axes2d s0)))
    as (Hevs & Hpath & Hstore & Hcompl).
  fold s0 in Hevs, Hpath, Hstore, Hcompl.
  set (s1 := set_axes2d (XYAxes.on_resize w h (axes2d s0)) s0) in *.
  destruct (create_settled sim0 args) as (_ & _ & Hflag & _).
  unfold create in Hflag. fold w h s0 in Hflag.
  destruct (update_frame s1) as (_ & _ & _ & Hn & _).
  assert (Hst : n_lines (st (on_resize w h s0)) = n_lines s0 /\
                data_store (st (on_resize w h s0)) = data_store (st (update s1)) /\
                path (st (on_resize w h s0)) = path (st (update s1))).
  { rewrite on_resize_st. fold s1.
    destruct (out (update s1)); repeat split; exact Hn. }
  destruct Hst as (Hn' & Hstore' & Hpath').
  split; [exact Hn'|]. split; [now rewrite Hstore'|].
  split; [apply preserves_on_resize_indices; reflexivity|].
  split; [apply preserves_on_resize_domains; reflexivity|].
  split; [now rewrite Hpath'|].
  split; [now rewrite on_resize_evs|].
  split; [rewrite Hflag, Hn'; reflexivity|].
  unfold completes. rewrite on_resize_out. exact Hcompl.
Qed.

(** Two dimensions with [index_x = 0] construct; with [index_x = 2] the
    constructor stops. *)
Lemma constructor_result_witness :
  completes (create (Scenario.sim_at 0) (Scenario.args 2)) = true /\
  completes (create (Scenario.sim_at 0)
               (mkArgs (Some 2%nat) (Fin (-1)) (Fin 1) (Fin 2) (Fin 0)
                  (Fin 20) (Fin 20))) = false.
Proof.
  split.
  - apply (proj2 (proj2 (proj2 (proj2 (proj2 (proj2 (proj2
             (constructor_result (Scenario.sim_at 0) (Scenario.args 2))))))))).
    right. vm_compute. discriminate.
  - destruct (completes (create (Scenario.sim_at 0)
                (mkArgs (Some 2%nat) (Fin (-1)) (Fin 1) (Fin 2) (Fin 0)
                   (Fin 20) (Fin 20)))) eqn:E; [|reflexivity].
    apply (proj2 (proj2 (proj2 (proj2 (proj2 (proj2 (proj2
             (constructor_result (Scenario.sim_at 0)
                (mkArgs (Some 2%nat) (Fin (-1)) (Fin 1) (Fin 2) (Fin 0)
                   (Fin 20) (Fin 20)))))))))) in E.
    destruct E as [E|E]; [vm_compute in E; lia | vm_compute in E; congruence].
Defined.

(** ** A range that cannot be redrawn *)

Lemma update_stops_any_axes (a : XYAxes.t) (s : t) :
  completes (update s) = false -> completes (update (set_axes2d a s)) = false.
Proof.
  intro H. apply update_stops. apply update_stops in H. exact H.
Qed.

(** X16.  When the component cannot redraw (its [update] stops, as it
    does with two or more dimensions and an index out of bounds), a range
    that [set_range] takes is applied but not saved: the call stops with a
    [TypeError] inside [update_range], both domains are the range that
    [parseFloat] reads from the two fields, nothing is rendered, no layout
    is saved and the dialog is not told to close. *)
Theorem set_range_applies_but_does_not_save
    (val : string) (min max : num) (s : t) :
  set_range_accepts val = true ->
  JS.parseFloat (nth_error (JS.split_comma val) 0) = min ->
  JS.parseFloat (nth_error (JS.split_comma val) 1) = max ->
  completes (update s) = false ->
  out (set_range val s) = TypeError /\
  evs (set_range val s) = [] /\
  domains (st (set_range val s)) = ((min, max), (min, max)) /\
  indices (st (set_range val s)) = indices s.
Proof.
  intros Hacc Hmin Hmax Hcannot.
  split; [|split; [|split]].
  3: { rewrite (set_range_accepted_run val s Hacc), Hmin, Hmax.
       apply bind_establishes
         with (P := fun s' => domains s' = ((min, max), (min, max))).
       - apply update_range_domains.
       - intros _.
         apply preserves_bind; [apply preserves_update_domains | intros _].
         apply preserves_bind; [apply preserves_save_layout | intros _].
         apply preserves_ret. }
  3: { apply preserves_set_range_indices. reflexivity. }
  all: rewrite (set_range_accepted_run val s Hacc), Hmin, Hmax.
  all: set (sF := set_axes2d
               (XYAxes.mk min max
                  (XYAxes.set_domain (min, max) (XYAxes.scale_x (axes2d s)))
                  (XYAxes.set_domain (min, max) (XYAxes.scale_y (axes2d s)))
                  (min, max) (min, max)) s).
  all: set (s1 := set_axes2d
               (XYAxes.on_resize (screen_width s) (screen_height s) (axes2d sF)) sF).
  all: assert (Hc1 : completes (update s1) = false)
         by (subst s1 sF; now do 2 apply update_stops_any_axes).
  all: assert (Hrun : update_range min max s =
                      on_resize (screen_width s) (screen_height s) sF)
         by (unfold update_range; rewrite bind_modify_run, bind_this_run;
             reflexivity).
  all: pose proof (update_stopped_state s1 Hc1) as Hstop.
  - rewrite out_bind, Hrun, on_resize_out. fold s1. now rewrite Hstop.
  - rewrite evs_bind, Hrun, on_resize_out, on_resize_evs. fold s1.
    now rewrite Hstop.
Qed.

(** Three samples with [index_x] out of bounds and the text [-5,10]: the
    range is applied, the call stops, nothing is saved. *)
Lemma set_range_applies_but_does_not_save_witness :
  out (set_range "-5,10" (set_index_x (Fin 3) Scenario.three_samples)) = TypeError /\
  evs (set_range "-5,10" (set_index_x (Fin 3) Scenario.three_samples)) = [] /\
  domains (st (set_range "-5,10" (set_index_x (Fin 3) Scenario.three_samples))) =
    ((Fin (-5), Fin 10), (Fin (-5), Fin 10)).
Proof.
  destruct (@set_range_applies_but_does_not_save "-5,10" (Fin (-5)) (Fin 10)
              (set_index_x (Fin 3) Scenario.three_samples))
    as (Hout & Hevs & Hdom & _).
  - vm_compute. reflexivity.
  - vm_compute. reflexivity.
  - vm_compute. reflexivity.
  - vm_compute. reflexivity.
  - split; [exact Hout|]. split; [exact Hevs | exact Hdom].
Defined.

(** ** The two axes over the life of a component *)

Lemma in_step_fields (s s' : t) :
  range_fields s' = range_fields s -> in_step s -> in_step s'.
Proof. unfold in_step. intros ->. auto. Qed.

Lemma preserves_in_step {A : Type} (m : M A) :
  (forall v, preserves (fun s => range_fields s = v) m) -> preserves in_step m.
Proof.
  intros Hm s Hs. apply (@in_step_fields s (st (m s))); [|exact Hs].
  apply (Hm (range_fields s) s eq_refl).
Qed.

Lemma preserves_range_fields_modify v (f : t -> t) :
  (forall s, axes2d (f s) = axes2d s) ->
  preserves (fun s => range_fields s = v) (modify f).
Proof.
  intros Hf s Hs. unfold range_fields, modify. cbn [st]. rewrite Hf. exact Hs.
Qed.

Lemma update_range_in_step (min max : num) (s : t) :
  in_step (st (update_range min max s)).
Proof. exists min, max. apply update_range_range_fields. Qed.

Lemma preserves_in_step_call (base : Layout -> M unit) (c : Call) :
  (forall config v, preserves (fun s => range_fields s = v) (base config)) ->
  forall s, in_step s -> in_step (after base c s).
Proof.
  intros Hbase s Hs.
  destruct c as [data| |sim'| | |w h|val|val|min max|ix iy|config]; cbn [after].
  - revert s Hs. apply preserves_in_step. intro v. unfold on_message, schedule_update.
    apply preserves_bind; [|intros _];
      apply preserves_range_fields_modify; reflexivity.
  - revert s Hs. apply preserves_in_step. intro v. unfold frame.
    apply preserves_bind; [intros s Hs; exact Hs | intros s0].
    destruct (pending_update s0); [|apply preserves_ret].
    apply preserves_bind;
      [apply preserves_range_fields_modify; reflexivity | intros _].
    apply preserves_update_range_fields.
  - revert s Hs. apply preserves_in_step. intro v. unfold adjust_time, schedule_update.
    apply preserves_bind; [|intros _];
      apply preserves_range_fields_modify; reflexivity.
  - revert s Hs. apply preserves_in_step. intro v. unfold reset, schedule_update.
    apply preserves_bind; [|intros _];
      apply preserves_range_fields_modify; reflexivity.
  - revert s Hs. apply preserves_in_step. intro v.
    apply preserves_update_range_fields.
  - revert s Hs. apply preserves_in_step. intro v.
    apply preserves_on_resize_range_fields.
  - unfold set_range.
    destruct (modal_rejects set_range_validator val); [exact Hs|].
    apply bind_establishes with (P := in_step).
    + apply update_range_in_step.
    + intros _. apply preserves_in_step. intro v.
      apply preserves_bind; [apply preserves_update_range_fields | intros _].
      apply preserves_bind; [apply preserves_save_layout | intros _].
      apply preserves_ret.
  - revert s Hs. apply preserves_in_step. intro v.
    apply preserves_set_indices_range_fields.
  - apply update_range_in_step.
  - revert s Hs. apply preserves_in_step. intro v.
    apply preserves_update_indices_range_fields.
  - unfold update_layout.
    rewrite st_bind.
    destruct (out (update_indices (cfg_index_x config) (cfg_index_y config) s)).
    + apply bind_establishes with (P := in_step).
      * apply update_range_in_step.
      * intros _. apply preserves_in_step. intro v. apply Hbase.
    + revert s Hs. apply preserves_in_step. intro v.
      apply preserves_update_indices_range_fields.
Qed.

(** X17.  The two axes never drift apart.  Every call of the component,
    however it ends, keeps the axes in step: if the bounds [min_val],
    [max_val], the domains of both scales and the tick values of both axes
    were one and the same pair before, they are one and the same pair
    after.  Only [update_range] writes them, and always all six.  (The base
    class is one that leaves them alone.) *)
Theorem axes_stay_in_step (base : Layout -> M unit) (c : Call) (s : t) :
  (forall config v, preserves (fun s' => range_fields s' = v) (base config)) ->
  in_step s ->
  in_step (after base c s).
Proof. intros Hbase Hs. now apply preserves_in_step_call. Qed.

(** The scenario after the dialog has set the range to [-5, 10]. *)
Lemma axes_stay_in_step_witness :
  in_step (after Scenario.no_base (CallSetRange "-5,10") Scenario.three_samples).
Proof.
  apply axes_stay_in_step.
  - intros config v s Hs. exact Hs.
  - exists (Fin (-10)), (Fin 10). reflexivity.
Defined.
